(** * GoldyBot V5: command registration, lifecycle and dispatch

    A shallow embedding of [GoldyBot/goldy/commands/__init__.py] (class
    [Command] and the module-level [commands_cache]), of
    [GoldyBot/goldy/goldy_config.py] (property [GoldyConfig.allowed_guilds],
    once as the commands use it and once on the parsed file, whatever it
    holds) and of the console's [do_reload].

    Python objects live in an explicit store and are referred to by their
    identity; every method is a state transformer that either returns a
    value or raises, keeping the effects made before the exception. *)

From Stdlib Require Import ZArith Lia Ascii String.
From stdpp Require Import base option list strings.

Local Open Scope string_scope.
Local Open Scope list_scope.

(** ** Python values, exceptions and the built-ins the source relies on *)

Set Warnings "-register-all".

Module Py.

(** JSON-shaped values, as the gateway payloads (plain [dict]s at run
    time) and the parsed [goldy.json] carry them.  No code modelled here
    computes with a [float]: it is kept as the literal it was read from. *)
Inductive value :=
| VNone
| VBool (b : bool)
| VInt (z : Z)
| VFloat (literal : string)
| VStr (s : string)
| VList (l : list value)
| VDict (d : list (string * value)).

Inductive exn :=
| KeyError (key : string)
| TypeError
| ValueError
| IndexError
| AttributeError
| GoldyBotError
| RemoteError       (* a request refused by the remote platform *)
| ReferenceError.   (* model only: an identity that denotes no object *)

Inductive result (A : Type) :=
| Ok (a : A)
| Raise (e : exn).
Arguments Ok {A} a.
Arguments Raise {A} e.

(** A [dict] keeps insertion order and has unique keys: an association
    list read by first match. *)
Fixpoint dict_get {V} (k : string) (d : list (string * V)) : option V :=
  match d with
  | [] => None
  | (k', v) :: d' => if String.eqb k k' then Some v else dict_get k d'
  end.

(** [k in d] *)
Definition dict_mem {V} (k : string) (d : list (string * V)) : bool :=
  match dict_get k d with Some _ => true | None => false end.

(** [del d[k]], for a key that is present: the entries under the other
    keys stay, in their order. *)
Fixpoint dict_del {V} (k : string) (d : list (string * V)) : list (string * V) :=
  match d with
  | [] => []
  | (k', v) :: d' =>
      if String.eqb k k' then dict_del k d' else (k', v) :: dict_del k d'
  end.

Definition dict_keys {V} (d : list (string * V)) : list string := map fst d.

(** [v[k]] with a [str] subscript. *)
Definition subscript (v : value) (k : string) : result value :=
  match v with
  | VDict d => match dict_get k d with
               | Some x => Ok x
               | None => Raise (KeyError k)
               end
  | _ => Raise TypeError
  end.

(** [v == s] where [s] is a [str]. *)
Definition eq_str (v : value) (s : string) : bool :=
  match v with
  | VStr t => String.eqb t s
  | _ => false
  end.

(** [v in l] where [l] is a list of [str]. *)
Definition in_strs (v : value) (l : list string) : bool :=
  existsb (eq_str v) l.

(** [list.remove(x)]: drops the first element equal to [x]; [None]
    stands for the [ValueError] raised when there is none. *)
Fixpoint list_remove {A} (eqb : A -> A -> bool) (x : A) (l : list A)
  : option (list A) :=
  match l with
  | [] => None
  | y :: l' =>
      if eqb y x then Some l'
      else match list_remove eqb x l' with
           | Some r => Some (y :: r)
           | None => None
           end
  end.

(** [s.split(sep)] for a one-character separator. *)
Fixpoint split_on (sep : ascii) (s : string) : list string :=
  match s with
  | EmptyString => [EmptyString]
  | String c s' =>
      if Ascii.eqb c sep then EmptyString :: split_on sep s'
      else match split_on sep s' with
           | [] => [String c EmptyString]
           | w :: ws => String c w :: ws
           end
  end.

(** [l[i]] *)
Definition index {A} (l : list A) (i : nat) : result A :=
  match l !! i with
  | Some x => Ok x
  | None => Raise IndexError
  end.

End Py.

Import Py.

(** ** Data model *)

(** The part of a function object that [Command.__init__] and
    [Command.extension_name] inspect.  [co_varnames] lists the positional
    parameters first and then every other variable name of the code object
    (keyword-only parameters, starred parameters, local variables);
    [co_argcount] counts the positional parameters only. *)
Record Callable := {
  fn_name : string;                 (* func.__name__ *)
  fn_str : string;                  (* str(func) *)
  declared_params : list string;
  other_varnames : list string
}.

Definition co_varnames (f : Callable) : list string :=
  declared_params f ++ other_varnames f.

Definition co_argcount (f : Callable) : Z :=
  Z.of_nat (length (declared_params f)).

(** Modelled from the spec: [PlatterType] (module [objects], not part of
    the sources at hand), the discriminator distinguishing prefix-triggered
    from slash-triggered invocation. *)
Inductive PlatterType := PREFIX_CMD | SLASH_CMD.

Definition PlatterType_value (t : PlatterType) : Z :=
  match t with PREFIX_CMD => 0 | SLASH_CMD => 1 end.

(** Modelled from the spec: [GoldPlatter], the per-invocation context
    bundling raw event payload, invocation type and the matched command. *)
Record GoldPlatter := {
  platter_data : value;
  platter_type : PlatterType;
  platter_command : nat
}.

(** The field of [discord_typings.ApplicationCommandData] that
    [remove_slash] reads. *)
Record ApplicationCommandData := { acd_id : string }.

(** The field of [discord_typings.ApplicationData] the source reads. *)
Record ApplicationData := { app_id : string }.

(** Commands are referred to by identity (an index into [heap]). *)
Record Command := {
  func : Callable;
  name : string;
  description : string;
  required_roles : option (list string);
  allow_prefix_cmd : bool;
  allow_slash_cmd : bool;
  parent_cmd : option nat;
  params : list string;
  priv_params_amount : Z;           (* self.__params_amount *)
  priv_in_extension : bool;         (* self.__in_extension *)
  list_of_application_command_data :
    option (list (string * ApplicationCommandData));
  priv_loaded : bool                (* self.__loaded *)
}.

(** Modelled from the spec: [Extension] (module [extensions], not part of
    the sources at hand): identified by code name, owning a list of command
    references that grows as those commands are loaded. *)
Record Extension := {
  code_name : string;
  ext_commands : list nat
}.

(** Modelled from the spec: a guild of the [Guilds] registry, of which the
    dispatcher reads the configured textual prefix. *)
Record Guild := { prefix : string }.

(** Modelled from the spec: the [Guilds] object of the core:
    [allowed_guilds] is iterated as (guild id, label) pairs by
    [create_slash]; [get_guild] resolves a guild id, [None] being
    Python's [None]. *)
Record Guilds := {
  guilds_allowed_guilds : list (string * string);
  get_guild : value -> option Guild
}.

(** Requests sent through [goldy.http_client]. *)
Inductive request :=
| CreateGuildApplicationCommand
    (application_id guild_id cmd_name cmd_description : string)
| DeleteGuildApplicationCommand
    (application_id guild_id command_id : string).

(** Callbacks known to the event dispatcher.  Each command owns the two
    closures made in [__init__]: [__normal_callback] is
    [CommandCallback c PREFIX_CMD], [__slash_callback] is
    [CommandCallback c SLASH_CMD]. *)
Inductive listener :=
| CommandCallback (c : nat) (t : PlatterType)
| OtherCallback (n : nat).

(** One call of a command's callback: [func(extension, platter)] when
    [call_extension] is [Some], [func(platter)] otherwise.  What the
    callback does with it is outside the command module. *)
Record Invocation := {
  call_command : nat;
  call_extension : option nat;
  call_platter : GoldPlatter
}.

Record World := {
  heap : list Command;                        (* Command objects *)
  commands_cache : list (string * nat);
  ext_heap : list Extension;                  (* Extension objects *)
  extensions_cache : list (string * nat);
  event_handlers : list (string * listener);  (* event_dispatcher *)
  http_requests : list request;               (* sent so far, oldest first *)
  http_respond : list request -> request -> option ApplicationCommandData;
  application_data : option ApplicationData;  (* goldy.application_data *)
  goldy_json_allowed_guilds : option (list (string * string));
  guilds : Guilds;                            (* goldy.guilds *)
  invocations : list Invocation               (* callback calls, oldest first *)
}.

(** ** A state-and-exception monad *)

Definition M (A : Type) : Type := World -> result A * World.

Definition ret {A} (a : A) : M A := fun w => (Ok a, w).

Definition raise {A} (e : exn) : M A := fun w => (Raise e, w).

Definition bind {A B} (m : M A) (k : A -> M B) : M B :=
  fun w => match m w with
           | (Ok a, w') => k a w'
           | (Raise e, w') => (Raise e, w')
           end.

Definition lift {A} (r : result A) : M A := fun w => (r, w).

Definition gets {A} (f : World -> A) : M A := fun w => (Ok (f w), w).

Definition modify (f : World -> World) : M unit := fun w => (Ok tt, f w).

#[global] Instance M_ret : MRet M := @ret.
#[global] Instance M_bind : MBind M := fun A B k m => bind m k.

(** [when b: m] *)
Definition when (b : bool) (m : M unit) : M unit := if b then m else ret tt.

(** [for x in l: body(x)] *)
Fixpoint for_each {A} (l : list A) (body : A -> M unit) : M unit :=
  match l with
  | [] => ret tt
  | x :: l' => body x ;; for_each l' body
  end.

(** *** Field updates *)

Definition set_heap (h : list Command) (w : World) : World :=
  {| heap := h; commands_cache := commands_cache w; ext_heap := ext_heap w;
     extensions_cache := extensions_cache w;
     event_handlers := event_handlers w; http_requests := http_requests w;
     http_respond := http_respond w; application_data := application_data w;
     goldy_json_allowed_guilds := goldy_json_allowed_guilds w;
     guilds := guilds w; invocations := invocations w |}.

Definition set_commands_cache (l : list (string * nat)) (w : World) : World :=
  {| heap := heap w; commands_cache := l; ext_heap := ext_heap w;
     extensions_cache := extensions_cache w;
     event_handlers := event_handlers w; http_requests := http_requests w;
     http_respond := http_respond w; application_data := application_data w;
     goldy_json_allowed_guilds := goldy_json_allowed_guilds w;
     guilds := guilds w; invocations := invocations w |}.

Definition set_ext_heap (h : list Extension) (w : World) : World :=
  {| heap := heap w; commands_cache := commands_cache w; ext_heap := h;
     extensions_cache := extensions_cache w;
     event_handlers := event_handlers w; http_requests := http_requests w;
     http_respond := http_respond w; application_data := application_data w;
     goldy_json_allowed_guilds := goldy_json_allowed_guilds w;
     guilds := guilds w; invocations := invocations w |}.

Definition set_event_handlers (l : list (string * listener)) (w : World)
  : World :=
  {| heap := heap w; commands_cache := commands_cache w;
     ext_heap := ext_heap w; extensions_cache := extensions_cache w;
     event_handlers := l; http_requests := http_requests w;
     http_respond := http_respond w; application_data := application_data w;
     goldy_json_allowed_guilds := goldy_json_allowed_guilds w;
     guilds := guilds w; invocations := invocations w |}.

Definition set_http_requests (l : list request) (w : World) : World :=
  {| heap := heap w; commands_cache := commands_cache w;
     ext_heap := ext_heap w; extensions_cache := extensions_cache w;
     event_handlers := event_handlers w; http_requests := l;
     http_respond := http_respond w; application_data := application_data w;
     goldy_json_allowed_guilds := goldy_json_allowed_guilds w;
     guilds := guilds w; invocations := invocations w |}.

Definition set_goldy_json_allowed_guilds
  (d : option (list (string * string))) (w : World) : World :=
  {| heap := heap w; commands_cache := commands_cache w;
     ext_heap := ext_heap w; extensions_cache := extensions_cache w;
     event_handlers := event_handlers w; http_requests := http_requests w;
     http_respond := http_respond w; application_data := application_data w;
     goldy_json_allowed_guilds := d;
     guilds := guilds w; invocations := invocations w |}.

Definition set_invocations (l : list Invocation) (w : World) : World :=
  {| heap := heap w; commands_cache := commands_cache w;
     ext_heap := ext_heap w; extensions_cache := extensions_cache w;
     event_handlers := event_handlers w; http_requests := http_requests w;
     http_respond := http_respond w; application_data := application_data w;
     goldy_json_allowed_guilds := goldy_json_allowed_guilds w;
     guilds := guilds w; invocations := l |}.

(** ** goldy_config.py *)

Definition template_key : string := "{guild_id_here}".

(** Modelled from the spec: [Config.get("goldy", "allowed_guilds")] (class
    [Config] is not part of the sources at hand) returns the structured
    value stored under the key, [None] when the key is not found.  The
    value is the stored object itself, so that [del] on it is seen by later
    reads. *)
Definition config_get_allowed_guilds : M (option (list (string * string))) :=
  gets goldy_json_allowed_guilds.

(** [for key in data: tuple_list.append((key, data[key]))] *)
Fixpoint tuples_of (keys : list string) (data : list (string * string))
  : result (list (string * string)) :=
  match keys with
  | [] => Ok []
  | key :: keys' =>
      match dict_get key data with
      | None => Raise (KeyError key)
      | Some v =>
          match tuples_of keys' data with
          | Ok l => Ok ((key, v) :: l)
          | Raise e => Raise e
          end
      end
  end.

(** [GoldyConfig.allowed_guilds] *)
Definition allowed_guilds : M (list (string * string)) :=
  data ← config_get_allowed_guilds;
  match data with
  | None => raise GoldyBotError
  | Some data =>
      data ← (if dict_mem template_key data
               then let data' := dict_del template_key data in
                    modify (set_goldy_json_allowed_guilds (Some data')) ;;
                    ret data'
               else ret data);
      lift (tuples_of (dict_keys data) data)
  end.

(** ** commands/__init__.py *)

Definition default_description : string :=
  "This command has no description. Sorry about that.".

Definition get_command (c : nat) : M Command :=
  fun w => match heap w !! c with
           | Some cmd => (Ok cmd, w)
           | None => (Raise ReferenceError, w)
           end.

Definition update_command (c : nat) (f : Command -> Command) : M unit :=
  modify (fun w => set_heap (alter f c (heap w)) w).

Definition with_list_of_application_command_data
  (l : option (list (string * ApplicationCommandData))) (cmd : Command)
  : Command :=
  {| func := func cmd; name := name cmd; description := description cmd;
     required_roles := required_roles cmd;
     allow_prefix_cmd := allow_prefix_cmd cmd;
     allow_slash_cmd := allow_slash_cmd cmd; parent_cmd := parent_cmd cmd;
     params := params cmd; priv_params_amount := priv_params_amount cmd;
     priv_in_extension := priv_in_extension cmd;
     list_of_application_command_data := l;
     priv_loaded := priv_loaded cmd |}.

Definition with_loaded (b : bool) (cmd : Command) : Command :=
  {| func := func cmd; name := name cmd; description := description cmd;
     required_roles := required_roles cmd;
     allow_prefix_cmd := allow_prefix_cmd cmd;
     allow_slash_cmd := allow_slash_cmd cmd; parent_cmd := parent_cmd cmd;
     params := params cmd; priv_params_amount := priv_params_amount cmd;
     priv_in_extension := priv_in_extension cmd;
     list_of_application_command_data :=
       list_of_application_command_data cmd;
     priv_loaded := b |}.

(** The fields [__init__] computes from its arguments; [IndexError] is
    [self.params[0]] on a code object without variable names. *)
Definition init_fields (f : Callable) (name_arg description_arg : option string)
  (roles : option (list string)) (allow_prefix allow_slash : bool)
  (parent : option nat) : result Command :=
  let name1 := match name_arg with None => fn_name f | Some n => n end in
  let description1 :=
    match description_arg with None => default_description | Some d => d end in
  let params0 := co_varnames f in
  let amount0 := co_argcount f in
  match index params0 0 with
  | Raise e => Raise e
  | Ok p0 =>
      let is_self := String.eqb p0 "self" in
      Ok {| func := f; name := name1; description := description1;
            required_roles := roles;
            allow_prefix_cmd := allow_prefix; allow_slash_cmd := allow_slash;
            parent_cmd := parent;
            params := if is_self then tail params0 else params0;
            priv_params_amount :=
              if is_self then (amount0 - 1)%Z else amount0;
            priv_in_extension := is_self;
            list_of_application_command_data := None;
            priv_loaded := false |}
  end.

(** [Command.__init__]: returns the identity of the new object. *)
Definition Command_init (f : Callable) (name_arg description_arg : option string)
  (roles : option (list string)) (allow_prefix allow_slash : bool)
  (parent : option nat) : M nat :=
  cmd ← lift (init_fields f name_arg description_arg roles
                allow_prefix allow_slash parent);
  c ← gets (fun w => length (heap w));
  modify (fun w => set_heap (heap w ++ [cmd]) w) ;;
  modify (fun w => set_commands_cache (commands_cache w ++ [(name cmd, c)]) w) ;;
  ret c.

(** Property [in_extension]. *)
Definition in_extension (cmd : Command) : bool :=
  if priv_in_extension cmd then true else false.

(** [str(self.func).split(" ")[1].split(".")[0]] *)
Definition extension_name_of (f : Callable) : result string :=
  match index (split_on " " (fn_str f)) 1 with
  | Raise e => Raise e
  | Ok qual => index (split_on "." qual) 0
  end.

(** Property [extension_name]. *)
Definition extension_name (cmd : Command) : result (option string) :=
  if in_extension cmd then
    match extension_name_of (func cmd) with
    | Ok n => Ok (Some n)
    | Raise e => Raise e
    end
  else Ok None.

(** Modelled from the spec: [utils.cache_lookup] (module [utils] is not part
    of the sources at hand), the linear lookup by name returning the first
    matching (name, object) pair, [None] when there is none. *)
Fixpoint cache_lookup {A} (item : string) (cache : list (string * A))
  : option (string * A) :=
  match cache with
  | [] => None
  | (n, x) :: cache' =>
      if String.eqb n item then Some (n, x) else cache_lookup item cache'
  end.

(** Property [extension]; [TypeError] is [None[1]]. *)
Definition extension (cmd : Command) : M (option nat) :=
  if in_extension cmd then
    ext_name ← lift (extension_name_of (func cmd));
    cache ← gets extensions_cache;
    match cache_lookup ext_name cache with
    | Some entry => ret (Some (snd entry))
    | None => raise TypeError
    end
  else ret None.

(** Property [is_child]. *)
Definition is_child (cmd : Command) : bool :=
  match parent_cmd cmd with None => false | Some _ => true end.

(** Property [loaded]. *)
Definition loaded (cmd : Command) : bool := priv_loaded cmd.

(** Modelled from the spec: [Extension.add_command] adds the command to the
    extension's tracked list. *)
Definition add_command (e c : nat) : M unit :=
  modify (fun w =>
    set_ext_heap
      (alter (fun x => {| code_name := code_name x;
                          ext_commands := ext_commands x ++ [c] |})
             e (ext_heap w)) w).

(** *** The external collaborators: event dispatcher and HTTP client *)

Definition PlatterType_eqb (a b : PlatterType) : bool :=
  Z.eqb (PlatterType_value a) (PlatterType_value b).

Definition listener_eqb (a b : listener) : bool :=
  match a, b with
  | CommandCallback c t, CommandCallback c' t' =>
      Nat.eqb c c' && PlatterType_eqb t t'
  | OtherCallback n, OtherCallback n' => Nat.eqb n n'
  | _, _ => false
  end.

Definition handler_eqb (a b : string * listener) : bool :=
  String.eqb (fst a) (fst b) && listener_eqb (snd a) (snd b).

(** [event_dispatcher.add_listener(callback, event_name=...)] *)
Definition add_listener (cb : listener) (event_name : string) : M unit :=
  modify (fun w => set_event_handlers (event_handlers w ++ [(event_name, cb)]) w).

(** [event_dispatcher.remove_listener(callback, event_name=...)]: the
    handler list of the event drops the first occurrence of the callback. *)
Definition remove_listener (cb : listener) (event_name : string) : M unit :=
  hs ← gets event_handlers;
  match list_remove handler_eqb (event_name, cb) hs with
  | Some hs' => modify (set_event_handlers hs')
  | None => raise ValueError
  end.

(** A request leaves through the HTTP client; the remote platform answers
    it or refuses it. *)
Definition http_send (r : request) : M ApplicationCommandData :=
  fun w =>
    let w' := set_http_requests (http_requests w ++ [r]) w in
    match http_respond w (http_requests w) r with
    | Some a => (Ok a, w')
    | None => (Raise RemoteError, w')
    end.

(** [self.goldy.application_data["id"]]; the attribute is [None] until the
    core has fetched it. *)
Definition application_id : M string :=
  a ← gets application_data;
  match a with
  | Some d => ret (app_id d)
  | None => raise TypeError
  end.

(** *** Methods of [Command] *)

(** The body of the loop of [create_slash], the list built so far being
    threaded through. *)
Fixpoint create_slash_loop (cmd : Command) (gs : list (string * string))
  (acc : list (string * ApplicationCommandData))
  : M (list (string * ApplicationCommandData)) :=
  match gs with
  | [] => ret acc
  | guild :: gs' =>
      app ← application_id;
      data ← http_send (CreateGuildApplicationCommand
                          app (fst guild) (name cmd) (description cmd));
      create_slash_loop cmd gs' (acc ++ [(fst guild, data)])
  end.

(** [Command.create_slash] *)
Definition create_slash (c : nat)
  : M (list (string * ApplicationCommandData)) :=
  cmd ← get_command c;
  gs ← gets (fun w => guilds_allowed_guilds (guilds w));
  l ← create_slash_loop cmd gs [];
  add_listener (CommandCallback c SLASH_CMD) "INTERACTION_CREATE" ;;
  update_command c (with_list_of_application_command_data (Some l)) ;;
  ret l.

(** [Command.remove_slash]; [TypeError] is the [for] statement over
    [None]. *)
Definition remove_slash (c : nat) : M unit :=
  cmd ← get_command c;
  match list_of_application_command_data cmd with
  | None => raise TypeError
  | Some l =>
      for_each l (fun slash_command =>
        app ← application_id;
        http_send (DeleteGuildApplicationCommand
                     app (fst slash_command) (acd_id (snd slash_command))) ;;
        ret tt)
  end ;;
  remove_listener (CommandCallback c SLASH_CMD) "INTERACTION_CREATE".

(** [Command.create_normal] *)
Definition create_normal (c : nat) : M unit :=
  add_listener (CommandCallback c PREFIX_CMD) "MESSAGE_CREATE".

(** [Command.remove_normal] *)
Definition remove_normal (c : nat) : M unit :=
  remove_listener (CommandCallback c PREFIX_CMD) "MESSAGE_CREATE".

(** [Command.load].  The source evaluates [self.extension] twice in a
    row, with nothing in between; it is evaluated once here. *)
Definition load (c : nat) : M unit :=
  cmd ← get_command c;
  when (allow_slash_cmd cmd) (create_slash c ;; ret tt) ;;
  when (allow_prefix_cmd cmd) (create_normal c) ;;
  ext ← extension cmd;
  match ext with
  | Some e => add_command e c
  | None => ret tt
  end ;;
  update_command c (with_loaded true).

(** [Command.unload] *)
Definition unload (c : nat) : M unit :=
  cmd ← get_command c;
  when (allow_slash_cmd cmd) (remove_slash c) ;;
  when (allow_prefix_cmd cmd) (remove_normal c) ;;
  update_command c (with_loaded false).

(** Equality of registry entries: tuples compare by components, strings by
    value and [Command] objects, which define no [__eq__], by identity. *)
Definition entry_eqb (a b : string * nat) : bool :=
  String.eqb (fst a) (fst b) && Nat.eqb (snd a) (snd b).

(** [Command.delete] *)
Definition delete (c : nat) : M unit :=
  unload c ;;
  cmd ← get_command c;
  cache ← gets commands_cache;
  match list_remove entry_eqb (name cmd, c) cache with
  | Some cache' => modify (set_commands_cache cache')
  | None => raise ValueError
  end.

(** [Command.any_args_missing] *)
Definition any_args_missing (cmd : Command) (command_executers_args : list value)
  : bool :=
  if Nat.eqb (length command_executers_args) (length (drop 1 (params cmd)))
  then true else false.

(** [await self.func(...)]: the call is recorded. *)
Definition call_func (c : nat) (ext : option nat) (platter : GoldPlatter)
  : M unit :=
  modify (fun w =>
    set_invocations
      (invocations w ++ [{| call_command := c; call_extension := ext;
                            call_platter := platter |}]) w).

(** [if self.in_extension: await self.func(self.extension, gold_plater)
     else: await self.func(gold_plater)] *)
Definition run_callback (c : nat) (cmd : Command) (platter : GoldPlatter)
  : M unit :=
  if in_extension cmd then
    ext ← extension cmd;
    call_func c ext platter
  else call_func c None platter.

(** [guild.prefix]; [AttributeError] when [get_guild] gave [None]. *)
Definition guild_prefix (guild : option Guild) : M string :=
  match guild with
  | Some g => ret (prefix g)
  | None => raise AttributeError
  end.

(** [Command.__invoke] *)
Definition invoke (c : nat) (data : value) (type : PlatterType) : M unit :=
  cmd ← get_command c;
  guild_id ← lift (subscript data "guild_id");
  allowed ← allowed_guilds;
  if in_strs guild_id (map fst allowed) then
    let gold_plater :=
      {| platter_data := data; platter_type := type; platter_command := c |} in
    guild_id ← lift (subscript data "guild_id");
    guild ← gets (fun w => get_guild (guilds w) guild_id);
    when (Z.eqb (PlatterType_value (platter_type gold_plater))
                (PlatterType_value PREFIX_CMD))
      (prefix ← guild_prefix guild;
       content ← lift (subscript data "content");
       if eq_str content (prefix +:+ name cmd) then
         (* the two fields formatted into the log line *)
         author ← lift (subscript data "author");
         _ ← lift (subscript author "username");
         author ← lift (subscript data "author");
         _ ← lift (subscript author "discriminator");
         run_callback c cmd gold_plater
       else ret tt) ;;
    when (Z.eqb (PlatterType_value (platter_type gold_plater))
                (PlatterType_value SLASH_CMD))
      (prefix ← guild_prefix guild;
       member ← lift (subscript data "member");
       user ← lift (subscript member "user");
       _ ← lift (subscript user "username");
       member ← lift (subscript data "member");
       user ← lift (subscript member "user");
       _ ← lift (subscript user "discriminator");
       run_callback c cmd gold_plater)
  else ret tt.

(** *** The dispatcher delivering an event *)

(** A listener of a command schedules [__invoke] as a task of its own
    ([async_loop.create_task]); an exception ends that task only. *)
Definition run_listener (l : listener) (data : value) : M unit :=
  match l with
  | CommandCallback c t => invoke c data t
  | OtherCallback _ => ret tt
  end.

(** The tasks of the listeners [ls], each with how it ended. *)
Fixpoint run_tasks (ls : list listener) (data : value) (w : World)
  : list (listener * result unit) * World :=
  match ls with
  | [] => ([], w)
  | l :: ls' =>
      let '(r, w1) := run_listener l data w in
      let '(rs, w2) := run_tasks ls' data w1 in
      ((l, r) :: rs, w2)
  end.

Definition listeners_of (event_name : string) (w : World) : list listener :=
  map snd (filter (fun h => String.eqb (fst h) event_name = true)
             (event_handlers w)).

(** The event dispatcher delivering one event of class [event_name] to the
    listeners registered for it, in registration order. *)
Definition dispatch (event_name : string) (data : value) (w : World)
  : list (listener * result unit) * World :=
  run_tasks (listeners_of event_name w) data w.

(** ** Notions the specification speaks of *)

(** The event-bus subscriptions of command [c]: the registered handlers
    that are one of its two callbacks. *)
Definition is_callback_of (c : nat) (h : string * listener) : bool :=
  match snd h with
  | CommandCallback c' _ => Nat.eqb c' c
  | OtherCallback _ => false
  end.

Definition subscriptions (c : nat) (w : World) : list (string * listener) :=
  filter (fun h => is_callback_of c h = true) (event_handlers w).

(** The calls of the callback of command [c] made so far. *)
Definition calls_of (c : nat) (w : World) : list Invocation :=
  filter (fun i => call_command i = c) (invocations w).

(** The allowed-guild object of the configuration once the template entry
    is gone. *)
Definition strip_template (data : list (string * string))
  : list (string * string) :=
  if dict_mem template_key data then dict_del template_key data else data.

(** The number of declared parameters as the specification counts them:
    without the self-reference of an extension-owned command and without
    the first parameter, the context object. *)
Definition spec_declared_arity (cmd : Command) : Z :=
  (co_argcount (func cmd) - (if in_extension cmd then 1 else 0) - 1)%Z.


(** The remote platform accepts every deletion request. *)
Definition accepts_deletions (w : World) : Prop :=
  forall log app g id,
    http_respond w log (DeleteGuildApplicationCommand app g id) <> None.

(** The deletion request that undoes one recorded slash handle. *)
Definition deletion_of (app : string)
  (handle : string * ApplicationCommandData) : request :=
  DeleteGuildApplicationCommand app (fst handle) (acd_id (snd handle)).

(** The keys of [discord_typings.MessageData] that [__invoke] reads
    besides [guild_id]; the type requires them of every message. *)
Definition message_data (d : list (string * value)) : Prop :=
  (exists content, dict_get "content" d = Some content) /\
  exists a u n, dict_get "author" d = Some (VDict a) /\
    dict_get "username" a = Some u /\ dict_get "discriminator" a = Some n.

(** The context object the handler of command [c] builds for a message. *)
Definition prefix_platter (c : nat) (d : list (string * value)) : GoldPlatter :=
  {| platter_data := VDict d; platter_type := PREFIX_CMD;
     platter_command := c |}.

(** A computation whose only effects are calls of the callback of command
    [c] and the removal of the template entry from the configuration. *)
Definition only_calls {A} (c : nat) (m : M A) : Prop :=
  forall w, exists j calls,
    snd (m w) =
      set_invocations (invocations w ++ calls)
        (set_goldy_json_allowed_guilds j w) /\
    Forall (fun i => call_command i = c) calls /\
    option_map strip_template j =
      option_map strip_template (goldy_json_allowed_guilds w).

(** The condition under which a message is a prefix invocation of [cmd]:
    it comes from guild [g], one of the allowed guilds [al], and its text
    is that guild's prefix followed by the command's name. *)
Definition prefix_match (al : list (string * string)) (gs : Guilds)
  (cmd : Command) (d : list (string * value)) : Prop :=
  exists g guild,
    dict_get "guild_id" d = Some (VStr g) /\ In g (map fst al) /\
    get_guild gs (VStr g) = Some guild /\
    dict_get "content" d = Some (VStr (prefix guild +:+ name cmd)).

(** ** live_console/app.py *)

(** [LiveConsoleApp.do_reload]: the argument it hands to
    [goldy.extension_reloader.reload], an extension object or Python's
    [None]. *)
Definition do_reload (extension_name : string) (w : World) : option nat :=
  let extension :=
    if negb (String.eqb extension_name "")
    then cache_lookup extension_name (extensions_cache w)
    else None in
  match extension with
  | Some x => Some (snd x)
  | None => None
  end.

(** ** Further notions *)

(** The registration request [create_slash] sends for one allowed guild. *)
Definition creation_of (app : string) (cmd : Command)
  (guild : string * string) : request :=
  CreateGuildApplicationCommand app (fst guild) (name cmd) (description cmd).

(** The remote platform accepts every registration request. *)
Definition accepts_creations (w : World) : Prop :=
  forall log app g n descr,
    http_respond w log (CreateGuildApplicationCommand app g n descr) <> None.

(** The keys of [discord_typings.InteractionData] that [__invoke] formats
    into its log line. *)
Definition interaction_data (d : list (string * value)) : Prop :=
  exists m u n1 n2,
    dict_get "member" d = Some (VDict m) /\
    dict_get "user" m = Some (VDict u) /\
    dict_get "username" u = Some n1 /\
    dict_get "discriminator" u = Some n2.

(** The context object the handler of command [c] builds for an
    interaction. *)
Definition slash_platter (c : nat) (d : list (string * value)) : GoldPlatter :=
  {| platter_data := VDict d; platter_type := SLASH_CMD;
     platter_command := c |}.

(** A string without the character [a]. *)
Fixpoint lacks (a : ascii) (s : string) : Prop :=
  match s with
  | EmptyString => True
  | String b s' => b <> a /\ lacks a s'
  end.

(** Every identity the registry and the event bus mention below [n]: no
    entry refers to an object made later. *)
Definition refers_below (n : nat) (w : World) : Prop :=
  (forall nm c, In (nm, c) (commands_cache w) -> c < n) /\
  (forall e c t, In (e, CommandCallback c t) (event_handlers w) -> c < n).

(** ** goldy_config.py, on the configuration file as parsed *)

Module GoldyConfig.

(** The value stored under a path of keys in the parsed [goldy.json], if
    every key of the path is there. *)
Fixpoint lookup (keys : list string) (json : value) : option value :=
  match keys with
  | [] => Some json
  | key :: keys' =>
      match json with
      | VDict d =>
          match dict_get key d with
          | Some v => lookup keys' v
          | None => None
          end
      | _ => None
      end
  end.

(** Modelled from the spec: [Config.get(section, ..., key,
    default_value=None)] (class [Config] is not part of the sources at
    hand) returns the stored value, and the default when it is not found.
    A stored [null] is Python's [None]. *)
Definition get (keys : list string) (default_value : value) (json : value)
  : value :=
  match lookup keys json with
  | Some v => v
  | None => default_value
  end.

(** [x in data], for a [str] [x]. *)
Definition contains (data : value) (x : string) : result bool :=
  match data with
  | VDict d => Ok (dict_mem x d)
  | VList l => Ok (existsb (fun v => eq_str v x) l)
  | VStr s => Ok (match String.index 0 x s with
                  | Some _ => true
                  | None => false
                  end)
  | _ => Raise TypeError
  end.

(** [del data[x]], for a [str] [x]. *)
Definition del_item (data : value) (x : string) : result value :=
  match data with
  | VDict d =>
      if dict_mem x d then Ok (VDict (dict_del x d)) else Raise (KeyError x)
  | _ => Raise TypeError
  end.

(** [l[i]] for a list, negative indices counting from the end. *)
Definition list_item (l : list value) (i : Z) : result value :=
  let n := Z.of_nat (length l) in
  let j := if (i <? 0)%Z then (n + i)%Z else i in
  if (j <? 0)%Z then Raise IndexError
  else match l !! Z.to_nat j with
       | Some v => Ok v
       | None => Raise IndexError
       end.

(** [for key in d: tuple_list.append((key, d[key]))] over a [dict]. *)
Fixpoint dict_tuples (keys : list string) (d : list (string * value))
  : result (list (value * value)) :=
  match keys with
  | [] => Ok []
  | key :: keys' =>
      match dict_get key d with
      | None => Raise (KeyError key)
      | Some v =>
          match dict_tuples keys' d with
          | Ok l => Ok ((VStr key, v) :: l)
          | Raise e => Raise e
          end
      end
  end.

(** What can index a list: an [int], and a [bool], which is one. *)
Definition as_index (key : value) : option Z :=
  match key with
  | VInt i => Some i
  | VBool b => Some (if b then 1 else 0)%Z
  | _ => None
  end.

(** The same loop over a list: its elements are the keys. *)
Fixpoint list_tuples (keys : list value) (l : list value)
  : result (list (value * value)) :=
  match keys with
  | [] => Ok []
  | key :: keys' =>
      match as_index key with
      | Some i =>
          match list_item l i with
          | Raise e => Raise e
          | Ok v =>
              match list_tuples keys' l with
              | Ok r => Ok ((key, v) :: r)
              | Raise e => Raise e
              end
          end
      | None => Raise TypeError
      end
  end.

(** The loop of the accessor, by the kind of object it is given: a [str]
    yields its characters, which cannot index it; a number is not
    iterable. *)
Definition tuples (data : value) : result (list (value * value)) :=
  match data with
  | VDict d => dict_tuples (dict_keys d) d
  | VList l => list_tuples l l
  | VStr EmptyString => Ok []
  | _ => Raise TypeError
  end.

(** A [dict] with the value under an existing key replaced. *)
Fixpoint dict_set (k : string) (v : value) (d : list (string * value))
  : list (string * value) :=
  match d with
  | [] => []
  | (k', v') :: d' =>
      if String.eqb k k' then (k', v) :: d' else (k', v') :: dict_set k v d'
  end.

(** The configuration once the object under [goldy.allowed_guilds] has
    changed in place. *)
Definition store (data : value) (json : value) : value :=
  match json with
  | VDict root =>
      match dict_get "goldy" root with
      | Some (VDict section) =>
          VDict (dict_set "goldy"
                   (VDict (dict_set "allowed_guilds" data section)) root)
      | _ => json
      end
  | _ => json
  end.

(** [GoldyConfig.allowed_guilds], for whatever the file holds: the result
    and the configuration afterwards. *)
Definition allowed_guilds (json : value)
  : result (list (value * value)) * value :=
  let data := get ["goldy"; "allowed_guilds"] VNone json in
  match data with
  | VNone => (Raise GoldyBotError, json)
  | _ =>
      match contains data template_key with
      | Raise e => (Raise e, json)
      | Ok true =>
          match del_item data template_key with
          | Raise e => (Raise e, json)
          | Ok data' => (tuples data', store data' json)
          end
      | Ok false => (tuples data, json)
      end
  end.

(** Whether a value is a number or a truth value. *)
Definition scalar (v : value) : bool :=
  match v with
  | VBool _ | VInt _ | VFloat _ => true
  | _ => false
  end.

(** An entry of an object of labels, and the pairs the accessor returns
    for such an object, as values. *)
Definition label_value (p : string * string) : string * value :=
  (fst p, VStr (snd p)).

Definition pair_values (al : list (string * string)) : list (value * value) :=
  map (fun p => (VStr (fst p), VStr (snd p))) al.

(** The parsed file that a world's allowed-guild setting stands for. *)
Definition json_of (setting : option (list (string * string))) : value :=
  VDict [("goldy",
          VDict (match setting with
                 | Some d => [("allowed_guilds", VDict (map label_value d))]
                 | None => []
                 end))].

End GoldyConfig.

(** ** Notions of a loaded command *)

(** How many listeners of kind [t] command [c] has under an event. *)
Definition own_listeners (c : nat) (t : PlatterType) (event_name : string)
  (w : World) : nat :=
  length (filter (fun l => listener_eqb l (CommandCallback c t) = true)
            (listeners_of event_name w)).

(** Command [c] is loaded for invocations of kind [t] that arrive as
    [event_name]: it is an object of the store, it has a listener under
    that event, its listeners there are all of that kind, and its
    extension, if it has one, resolves. *)
Definition listening (c : nat) (cmd : Command) (t : PlatterType)
  (event_name : string) (w : World) : Prop :=
  heap w !! c = Some cmd /\
  In (event_name, CommandCallback c t) (event_handlers w) /\
  (forall t', In (event_name, CommandCallback c t') (event_handlers w) ->
              t' = t) /\
  (exists ext, fst (extension cmd w) = Ok ext).

(** What the handler of command [c] relies on: the command itself, a
    configuration whose allowed guilds are [al], the guild registry [gs]
    that knows each of them, and an extension that resolves. *)
Definition handler_env (c : nat) (cmd : Command)
  (al : list (string * string)) (gs : Guilds) (w : World) : Prop :=
  heap w !! c = Some cmd /\
  (exists data,
     goldy_json_allowed_guilds w = Some data /\
     tuples_of (dict_keys (strip_template data)) (strip_template data)
       = Ok al) /\
  guilds w = gs /\
  (forall s, In s (map fst al) -> is_Some (get_guild gs (VStr s))) /\
  (exists ext, fst (extension cmd w) = Ok ext).

(** A call of the callback of [c] with the context [platter]. *)
Definition is_call (c : nat) (platter : GoldPlatter) (i : Invocation) : Prop :=
  exists ext,
    i = {| call_command := c; call_extension := ext;
           call_platter := platter |}.

(** How the handler of [c] ends on a payload, in any world it can rely
    on: with the one call that [Q] asks for, or with none. *)
Definition handler_outcome (c : nat) (cmd : Command)
  (al : list (string * string)) (gs : Guilds) (t : PlatterType)
  (d : list (string * value)) (Q : Prop) (platter : GoldPlatter) : Prop :=
  forall w, handler_env c cmd al gs w ->
    exists r j calls,
      invoke c (VDict d) t w =
        (r, set_invocations (invocations w ++ calls)
              (set_goldy_json_allowed_guilds j w)) /\
      option_map strip_template j =
        option_map strip_template (goldy_json_allowed_guilds w) /\
      ((Q /\ exists i, is_call c platter i /\ calls = [i]) \/
       (~ Q /\ calls = [])) /\
      (is_Some (dict_get "guild_id" d) -> r = Ok tt).

(** A computation that, besides making calls, leaves the configuration
    as it is or with the template entry of the allowed guilds deleted. *)
Definition config_step {A} (m : M A) : Prop :=
  forall w, exists j calls,
    snd (m w) =
      set_invocations (invocations w ++ calls)
        (set_goldy_json_allowed_guilds j w) /\
    (j = goldy_json_allowed_guilds w \/
     j = option_map strip_template (goldy_json_allowed_guilds w)).

(** The bus holds the two callbacks of every command only where [load]
    puts them. *)
Definition bus_discipline (w : World) : Prop :=
  forall e c t,
    In (e, CommandCallback c t) (event_handlers w) ->
    (t = PREFIX_CMD /\ e = "MESSAGE_CREATE") \/
    (t = SLASH_CMD /\ e = "INTERACTION_CREATE").

(** ** A concrete bot, for running the model *)

Module Sample.

Definition ping_func : Callable :=
  {| fn_name := "ping"; fn_str := "<function ping at 0x7f3a5c>";
     declared_params := ["platter"]; other_varnames := [] |}.

(** A method [ping(self, platter)] of extension class [Fun]. *)
Definition fun_ping_func : Callable :=
  {| fn_name := "ping"; fn_str := "<function Fun.ping at 0x7f3a5c>";
     declared_params := ["self"; "platter"]; other_varnames := [] |}.

(** [async def roll(platter, sides): total = ...], one local variable. *)
Definition roll_func : Callable :=
  {| fn_name := "roll"; fn_str := "<function roll at 0x7f3a60>";
     declared_params := ["platter"; "sides"]; other_varnames := ["total"] |}.

Definition remote_ok (log : list request) (r : request)
  : option ApplicationCommandData :=
  Some {| acd_id := "9000" |}.

Definition the_guilds : Guilds :=
  {| guilds_allowed_guilds := [("123", "test_server")];
     get_guild := fun v =>
       if eq_str v "123" then Some {| prefix := "!" |} else None |}.

Definition boot : World :=
  {| heap := []; commands_cache := [];
     ext_heap := [{| code_name := "Fun"; ext_commands := [] |}];
     extensions_cache := [("Fun", 0)];
     event_handlers := [("READY", OtherCallback 0)];
     http_requests := [];
     http_respond := remote_ok;
     application_data := Some {| app_id := "42" |};
     goldy_json_allowed_guilds :=
       Some [("{guild_id_here}", "{guild_code_name_here}");
             ("123", "test_server")];
     guilds := the_guilds;
     invocations := [] |}.

(** The world after [f] ran on [w], whatever it returned. *)
Definition after {A} (m : M A) (w : World) : World := snd (m w).

(** A message-create payload, with or without a guild id. *)
Definition message (guild_id : option string) (content : string)
  : list (string * value) :=
  (match guild_id with
   | Some g => [("guild_id", VStr g)]
   | None => []
   end) ++
  [("content", VStr content);
   ("author", VDict [("username", VStr "goldy");
                     ("discriminator", VStr "0001")])].

(** The command [Command(goldy, ping)] as [__init__] leaves it. *)
Definition ping_cmd : Command :=
  {| func := ping_func; name := "ping"; description := default_description;
     required_roles := None; allow_prefix_cmd := true;
     allow_slash_cmd := true; parent_cmd := None; params := ["platter"];
     priv_params_amount := 1; priv_in_extension := false;
     list_of_application_command_data := None; priv_loaded := false |}.

(** [Command(goldy, ping)], the first object made: its identity is 0. *)
Definition with_ping : World :=
  after (Command_init ping_func None None None true true None) boot.

Definition with_ping_loaded : World := after (load 0) with_ping.

(** [Command(goldy, ping, allow_slash_cmd=False)] *)
Definition with_prefix_ping : World :=
  after (Command_init ping_func None None None true false None) boot.

(** A second command made from a function of the same name, then loaded. *)
Definition with_two_pings : World :=
  after (load 1)
    (after (Command_init ping_func None None None true true None)
       with_ping_loaded).

(** The first command deleted, then loaded once more. *)
Definition with_ping_reloaded : World :=
  after (load 0) (after (delete 0) with_ping_loaded).

(** An interaction-create payload of the allowed guild. *)
Definition interaction (guild_id : string) (command_name : string)
  : list (string * value) :=
  [("guild_id", VStr guild_id);
   ("data", VDict [("name", VStr command_name)]);
   ("member", VDict [("user", VDict [("username", VStr "goldy");
                                     ("discriminator", VStr "0001")])])].

(** A remote platform that refuses everything. *)
Definition remote_down (log : list request) (r : request)
  : option ApplicationCommandData := None.

(** A bot with two allowed guilds whose remote platform answers the first
    request only. *)
Definition remote_once (log : list request) (r : request)
  : option ApplicationCommandData :=
  match log with
  | [] => Some {| acd_id := "9000" |}
  | _ => None
  end.

Definition two_guilds : Guilds :=
  {| guilds_allowed_guilds := [("123", "test_server"); ("456", "other")];
     get_guild := fun v =>
       if eq_str v "123" then Some {| prefix := "!" |}
       else if eq_str v "456" then Some {| prefix := "?" |} else None |}.

Definition flaky_boot : World :=
  {| heap := []; commands_cache := [];
     ext_heap := []; extensions_cache := [];
     event_handlers := []; http_requests := [];
     http_respond := remote_once;
     application_data := Some {| app_id := "42" |};
     goldy_json_allowed_guilds :=
       Some [("123", "test_server"); ("456", "other")];
     guilds := two_guilds;
     invocations := [] |}.

Definition with_flaky_ping : World :=
  after (Command_init ping_func None None None true true None) flaky_boot.

(** [def nothing(): pass], a code object without variable names. *)
Definition nothing_func : Callable :=
  {| fn_name := "nothing"; fn_str := "<function nothing at 0x7f3a64>";
     declared_params := []; other_varnames := [] |}.

(** A method of a class [Lost] that no extension is registered under. *)
Definition lost_ping_func : Callable :=
  {| fn_name := "ping"; fn_str := "<function Lost.ping at 0x7f3a68>";
     declared_params := ["self"; "platter"]; other_varnames := [] |}.

Definition with_lost_ping : World :=
  after (Command_init lost_ping_func None None None true false None) boot.

(** [def odd(): self = ...], no parameter and a local variable [self]. *)
Definition odd_func : Callable :=
  {| fn_name := "odd"; fn_str := "<function odd at 0x7f3a6c>";
     declared_params := []; other_varnames := ["self"] |}.

(** A [goldy.json] whose allowed-guild key holds [null]. *)
Definition json_null : value :=
  VDict [("goldy", VDict [("allowed_guilds", VNone)])].

(** A [goldy.json] as the setup leaves it, with one guild added. *)
Definition json_guilds : value :=
  VDict [("goldy",
          VDict [("extensions", VDict []);
                 ("allowed_guilds",
                  VDict [("{guild_id_here}", VStr "{guild_code_name_here}");
                         ("123", VStr "test_server")])])].

End Sample.

(** * Properties *)

(** ** Running the monad *)

(** Projections of updated worlds. *)
Ltac world_fields :=
  cbn [heap commands_cache ext_heap extensions_cache event_handlers
       http_requests http_respond application_data goldy_json_allowed_guilds
       guilds invocations set_heap set_commands_cache set_ext_heap
       set_event_handlers set_http_requests set_goldy_json_allowed_guilds
       set_invocations fst snd].

Lemma run_bind {A B} (m : M A) (k : A -> M B) (w : World) :
  (m ≫= k) w =
  match m w with
  | (Ok a, w') => k a w'
  | (Raise e, w') => (Raise e, w')
  end.
Proof. reflexivity. Qed.

Lemma run_bind_ok {A B} (m : M A) (k : A -> M B) w a w' :
  m w = (Ok a, w') -> (m ≫= k) w = k a w'.
Proof. intros H. rewrite run_bind, H. reflexivity. Qed.

Lemma run_bind_raise {A B} (m : M A) (k : A -> M B) w e w' :
  m w = (Raise e, w') -> (m ≫= k) w = (Raise e, w').
Proof. intros H. rewrite run_bind, H. reflexivity. Qed.

Lemma run_ret {A} (a : A) w : (mret a : M A) w = (Ok a, w).
Proof. reflexivity. Qed.

Lemma get_command_ok w c cmd :
  heap w !! c = Some cmd -> get_command c w = (Ok cmd, w).
Proof. intros H. unfold get_command. rewrite H. reflexivity. Qed.

(** ** Built-ins *)

Lemma string_eqb_eq (a b : string) : String.eqb a b = true <-> a = b.
Proof. apply String.eqb_eq. Qed.

Lemma entry_eqb_eq a b : entry_eqb a b = true <-> a = b.
Proof.
  destruct a as [n c], b as [n' c']. unfold entry_eqb. simpl.
  rewrite andb_true_iff, String.eqb_eq, Nat.eqb_eq.
  split; [intros [-> ->]; reflexivity | intros [= -> ->]; auto].
Qed.

Lemma PlatterType_eqb_eq a b : PlatterType_eqb a b = true <-> a = b.
Proof.
  destruct a, b; split; intros H;
    first [reflexivity | discriminate | vm_compute in H; discriminate].
Qed.

Lemma listener_eqb_eq a b : listener_eqb a b = true <-> a = b.
Proof.
  destruct a as [c t|n], b as [c' t'|n']; simpl.
  - rewrite andb_true_iff, Nat.eqb_eq, PlatterType_eqb_eq.
    split; [intros [-> ->]; reflexivity | intros [= -> ->]; auto].
  - split; intros H; discriminate.
  - split; intros H; discriminate.
  - rewrite Nat.eqb_eq. split; intros H; congruence.
Qed.

Lemma handler_eqb_eq a b : handler_eqb a b = true <-> a = b.
Proof.
  destruct a as [e l], b as [e' l']. unfold handler_eqb. simpl.
  rewrite andb_true_iff, String.eqb_eq, listener_eqb_eq.
  split; [intros [-> ->]; reflexivity | intros [= -> ->]; auto].
Qed.

(** [list.remove] takes out the first occurrence and nothing else. *)
Lemma list_remove_Some {A} (eqb : A -> A -> bool) x l r :
  (forall a b, eqb a b = true <-> a = b) ->
  list_remove eqb x l = Some r ->
  exists l1 l2, l = l1 ++ x :: l2 /\ r = l1 ++ l2 /\ ~ In x l1.
Proof.
  intros Heq. revert r. induction l as [|y l IH]; intros r H; simpl in H.
  - discriminate.
  - destruct (eqb y x) eqn:E.
    + apply Heq in E. subst y. injection H as <-.
      exists [], l. auto.
    + destruct (list_remove eqb x l) as [r'|] eqn:E'; [|discriminate].
      injection H as <-.
      destruct (IH r' eq_refl) as (l1 & l2 & -> & -> & Hn).
      exists (y :: l1), l2. repeat split; auto.
      intros [->|Hin]; [|auto].
      assert (eqb x x = true) by (apply Heq; reflexivity). congruence.
Qed.

Lemma list_remove_None {A} (eqb : A -> A -> bool) x l :
  (forall a b, eqb a b = true <-> a = b) ->
  list_remove eqb x l = None <-> ~ In x l.
Proof.
  intros Heq. induction l as [|y l IH]; simpl.
  - tauto.
  - destruct (eqb y x) eqn:E.
    + apply Heq in E. subst. split; [discriminate | intros H; exfalso; auto].
    + destruct (list_remove eqb x l) eqn:E'.
      * split; [discriminate|]. intros H. exfalso.
        assert (Hl : ~ In x l) by tauto.
        apply IH in Hl. discriminate.
      * split; [|reflexivity]. intros _ [->|Hin].
        -- assert (eqb x x = true) by (apply Heq; reflexivity). congruence.
        -- destruct IH as [IH _]. apply (IH eq_refl Hin).
Qed.

Lemma list_remove_app {A} (eqb : A -> A -> bool) x l1 l2 :
  (forall a b, eqb a b = true <-> a = b) ->
  ~ In x l1 -> list_remove eqb x (l1 ++ x :: l2) = Some (l1 ++ l2).
Proof.
  intros Heq. induction l1 as [|y l1 IH]; intros Hn; simpl.
  - assert (E : eqb x x = true) by (apply Heq; reflexivity).
    rewrite E. reflexivity.
  - destruct (eqb y x) eqn:E.
    + apply Heq in E. subst. exfalso. apply Hn. left. reflexivity.
    + rewrite IH; [reflexivity|]. intros Hin. apply Hn. right. exact Hin.
Qed.

(** ** Construction *)

Lemma init_fields_ok f name_arg description_arg roles allow_prefix allow_slash
  parent p ps :
  co_varnames f = p :: ps ->
  init_fields f name_arg description_arg roles allow_prefix allow_slash parent =
  Ok {| func := f;
        name := match name_arg with None => fn_name f | Some n => n end;
        description := match description_arg with
                       | None => default_description
                       | Some d => d
                       end;
        required_roles := roles;
        allow_prefix_cmd := allow_prefix; allow_slash_cmd := allow_slash;
        parent_cmd := parent;
        params := if String.eqb p "self" then ps else p :: ps;
        priv_params_amount :=
          if String.eqb p "self" then (co_argcount f - 1)%Z else co_argcount f;
        priv_in_extension := String.eqb p "self";
        list_of_application_command_data := None;
        priv_loaded := false |}.
Proof.
  intros Hv. unfold init_fields. rewrite Hv. reflexivity.
Qed.

Lemma init_fields_raises f name_arg description_arg roles allow_prefix
  allow_slash parent :
  co_varnames f = [] ->
  init_fields f name_arg description_arg roles allow_prefix allow_slash parent =
  Raise IndexError.
Proof. intros Hv. unfold init_fields. rewrite Hv. reflexivity. Qed.

Lemma Command_init_run f name_arg description_arg roles allow_prefix allow_slash
  parent cmd w :
  init_fields f name_arg description_arg roles allow_prefix allow_slash parent
    = Ok cmd ->
  Command_init f name_arg description_arg roles allow_prefix allow_slash parent w
    = (Ok (length (heap w)),
       set_commands_cache (commands_cache w ++ [(name cmd, length (heap w))])
         (set_heap (heap w ++ [cmd]) w)).
Proof.
  intros H. unfold Command_init. rewrite run_bind. unfold lift. rewrite H.
  reflexivity.
Qed.

(** C7, as amended: constructing a command whose callback declares at
    least one parameter succeeds and yields a new object that is unloaded,
    named by the given name or else by the callback's function
    identifier, and extension-owned exactly when the first declared
    parameter is [self], in which case that parameter is dropped from the
    tracked list and from the count; exactly one (name, command) pair is
    appended to the registry, whatever names it already holds. *)
Theorem Command_init_spec (f : Callable)
  (name_arg description_arg : option string) (roles : option (list string))
  (allow_prefix allow_slash : bool) (parent : option nat) (w : World) :
  declared_params f <> [] ->
  exists cmd w',
    let c := length (heap w) in
    Command_init f name_arg description_arg roles allow_prefix allow_slash
      parent w = (Ok c, w') /\
    heap w' = heap w ++ [cmd] /\
    heap w' !! c = Some cmd /\
    loaded cmd = false /\
    name cmd = match name_arg with Some n => n | None => fn_name f end /\
    (in_extension cmd = true <-> head (declared_params f) = Some "self") /\
    params cmd =
      (if in_extension cmd then tail (co_varnames f) else co_varnames f) /\
    priv_params_amount cmd =
      (co_argcount f - (if in_extension cmd then 1 else 0))%Z /\
    commands_cache w' = commands_cache w ++ [(name cmd, c)].
Proof.
  intros Hp.
  destruct (declared_params f) as [|p ps] eqn:Hd; [congruence|].
  assert (Hv : co_varnames f = p :: (ps ++ other_varnames f))
    by (unfold co_varnames; rewrite Hd; reflexivity).
  pose proof (init_fields_ok f name_arg description_arg roles allow_prefix
                allow_slash parent p _ Hv) as Hi.
  eexists. eexists. cbv zeta.
  split; [apply Command_init_run; exact Hi|].
  simpl. split; [reflexivity|].
  split; [rewrite lookup_app_r, Nat.sub_diag by lia; reflexivity|].
  split; [reflexivity|].
  split; [destruct name_arg; reflexivity|].
  unfold in_extension. simpl. rewrite Hv.
  destruct (String.eqb p "self") eqn:E; simpl.
  - apply String.eqb_eq in E. subst p.
    repeat split; auto.
  - repeat split; try (intros; discriminate); try lia.
    intros [= ->]. rewrite String.eqb_refl in E. discriminate.
Qed.

(** A command is constructed without slash handles. *)
Lemma init_fields_no_slash_handles f name_arg description_arg roles
  allow_prefix allow_slash parent cmd :
  init_fields f name_arg description_arg roles allow_prefix allow_slash parent
    = Ok cmd ->
  list_of_application_command_data cmd = None /\
  allow_prefix_cmd cmd = allow_prefix /\ allow_slash_cmd cmd = allow_slash.
Proof.
  unfold init_fields. destruct (index (co_varnames f) 0); [|discriminate].
  intros [= <-]. auto.
Qed.

(** ** The arity check *)

Lemma any_args_missing_true cmd args :
  any_args_missing cmd args = true <->
  length args = length (drop 1 (params cmd)).
Proof.
  unfold any_args_missing.
  destruct (Nat.eqb _ _) eqn:E.
  - apply Nat.eqb_eq in E. tauto.
  - apply Nat.eqb_neq in E. split; [discriminate | contradiction].
Qed.

(** C2, as amended: for a command whose callback declares the context
    parameter and has no variable names besides its positional parameters,
    [any_args_missing] returns true exactly when the number of supplied
    arguments equals the number of declared parameters, the self-reference
    and the context object not counted. *)
Theorem any_args_missing_arity (f : Callable)
  (name_arg description_arg : option string) (roles : option (list string))
  (allow_prefix allow_slash : bool) (parent : option nat) (cmd : Command)
  (args : list value) :
  init_fields f name_arg description_arg roles allow_prefix allow_slash parent
    = Ok cmd ->
  other_varnames f = [] ->
  (0 <= spec_declared_arity cmd)%Z ->
  any_args_missing cmd args = true <->
  Z.of_nat (length args) = spec_declared_arity cmd.
Proof.
  intros Hi Ho Ha. rewrite any_args_missing_true.
  unfold init_fields in Hi.
  destruct (co_varnames f) as [|p ps] eqn:Hv; simpl in Hi; [discriminate|].
  injection Hi as <-.
  unfold spec_declared_arity, in_extension, co_argcount in *. simpl in *.
  unfold co_varnames in Hv. rewrite Ho, app_nil_r in Hv. rewrite Hv in *.
  simpl in *.
  destruct (String.eqb p "self"); simpl in *.
  - destruct ps as [|q qs]; simpl in *; [lia|].
    rewrite drop_0. lia.
  - rewrite drop_0. lia.
Qed.

(** ** The allowed-guild accessor *)

Lemma dict_get_In {V} k (d : list (string * V)) :
  In k (dict_keys d) -> exists v, dict_get k d = Some v.
Proof.
  induction d as [|[k' v] d IH]; simpl; [tauto|].
  intros [->|Hin].
  - rewrite String.eqb_refl. eauto.
  - destruct (String.eqb k k'); eauto.
Qed.

Lemma dict_get_NoDup {V} k (v : V) d :
  NoDup (dict_keys d) -> In (k, v) d -> dict_get k d = Some v.
Proof.
  induction d as [|[k' v'] d IH]; simpl; [tauto|].
  intros Hnd Hin. apply NoDup_cons in Hnd as [Hk Hnd].
  destruct Hin as [[= -> ->]|Hin].
  - rewrite String.eqb_refl. reflexivity.
  - destruct (String.eqb k k') eqn:E.
    + apply String.eqb_eq in E. subst k'. exfalso. apply Hk.
      apply list_elem_of_In. apply (in_map fst) in Hin. exact Hin.
    + auto.
Qed.

Lemma dict_del_filter {V} k (d : list (string * V)) :
  dict_del k d = filter (fun p => fst p <> k) d.
Proof.
  induction d as [|[k' v] d IH]; simpl; [reflexivity|].
  destruct (String.eqb k k') eqn:E.
  - apply String.eqb_eq in E. subst k'.
    rewrite filter_cons_False by (simpl; auto). exact IH.
  - apply String.eqb_neq in E.
    rewrite filter_cons_True by (simpl; auto). rewrite IH. reflexivity.
Qed.

Lemma dict_mem_false_filter {V} k (d : list (string * V)) :
  dict_mem k d = false -> filter (fun p => fst p <> k) d = d.
Proof.
  unfold dict_mem. induction d as [|[k' v] d IH]; simpl; [reflexivity|].
  destruct (String.eqb k k') eqn:E; [discriminate|].
  apply String.eqb_neq in E. intros H.
  rewrite filter_cons_True by (simpl; auto). rewrite IH; auto.
Qed.

Lemma strip_template_filter data :
  strip_template data = filter (fun p => fst p <> template_key) data.
Proof.
  unfold strip_template.
  destruct (dict_mem template_key data) eqn:E; rewrite ?E.
  - apply dict_del_filter.
  - symmetry. apply dict_mem_false_filter. exact E.
Qed.

Lemma dict_mem_dict_del {V} k (d : list (string * V)) :
  dict_mem k (dict_del k d) = false.
Proof.
  unfold dict_mem. induction d as [|[k' v] d IH]; simpl; [reflexivity|].
  destruct (String.eqb k k') eqn:E; [exact IH|].
  simpl. rewrite E. exact IH.
Qed.

Lemma strip_template_idem data :
  strip_template (strip_template data) = strip_template data.
Proof.
  unfold strip_template.
  destruct (dict_mem template_key data) eqn:E.
  - rewrite dict_mem_dict_del. reflexivity.
  - rewrite E. reflexivity.
Qed.

(** The loop of the accessor never raises: every key it meets is a key of
    the object it reads. *)
Lemma tuples_of_total keys (data : list (string * string)) :
  (forall k, In k keys -> In k (dict_keys data)) ->
  exists l, tuples_of keys data = Ok l /\ map fst l = keys.
Proof.
  induction keys as [|k keys IH]; intros Hk; simpl.
  - exists []. auto.
  - destruct (dict_get_In k data) as [v Hv]; [apply Hk; left; reflexivity|].
    rewrite Hv.
    destruct IH as (l & Hl & Hm); [intros; apply Hk; right; assumption|].
    rewrite Hl. exists ((k, v) :: l). simpl. rewrite Hm. auto.
Qed.

Lemma tuples_of_entries (l data : list (string * string)) :
  (forall k v, In (k, v) l -> dict_get k data = Some v) ->
  tuples_of (dict_keys l) data = Ok l.
Proof.
  unfold dict_keys.
  induction l as [|[k v] l IH]; intros H; simpl; [reflexivity|].
  rewrite (H k v) by (left; reflexivity).
  rewrite IH; [reflexivity|].
  intros. apply H. right. assumption.
Qed.

Lemma tuples_of_self data :
  NoDup (dict_keys data) -> tuples_of (dict_keys data) data = Ok data.
Proof.
  intros Hnd. apply tuples_of_entries. intros k v Hin.
  apply dict_get_NoDup; assumption.
Qed.

Lemma set_goldy_json_allowed_guilds_same w :
  set_goldy_json_allowed_guilds (goldy_json_allowed_guilds w) w = w.
Proof. destruct w. reflexivity. Qed.

(** What the accessor does on a configuration that has the key. *)
Lemma allowed_guilds_run w data :
  goldy_json_allowed_guilds w = Some data ->
  exists al,
    allowed_guilds w =
      (Ok al, set_goldy_json_allowed_guilds (Some (strip_template data)) w) /\
    map fst al = dict_keys (strip_template data) /\
    tuples_of (dict_keys (strip_template data)) (strip_template data) = Ok al.
Proof.
  intros Hd.
  destruct (tuples_of_total (dict_keys (strip_template data))
              (strip_template data)) as (al & Hal & Hm); [auto|].
  exists al. split; [|auto].
  unfold allowed_guilds, config_get_allowed_guilds. rewrite run_bind.
  unfold gets. rewrite Hd. unfold strip_template in *.
  destruct (dict_mem template_key data) eqn:E.
  - rewrite run_bind. unfold lift. rewrite run_bind. simpl.
    rewrite Hal. reflexivity.
  - rewrite run_bind. simpl. unfold lift. rewrite Hal.
    rewrite <- Hd, set_goldy_json_allowed_guilds_same. reflexivity.
Qed.

Lemma allowed_guilds_raises w :
  goldy_json_allowed_guilds w = None ->
  allowed_guilds w = (Raise GoldyBotError, w).
Proof.
  intros Hd. unfold allowed_guilds, config_get_allowed_guilds.
  rewrite run_bind. unfold gets. rewrite Hd. reflexivity.
Qed.

(** The pairs the accessor returns: those of the allowed-guild object, in
    their order, the template entry left out. *)
Lemma allowed_guilds_pairs w data :
  goldy_json_allowed_guilds w = Some data -> NoDup (dict_keys data) ->
  fst (allowed_guilds w) = Ok (filter (fun p => fst p <> template_key) data).
Proof.
  intros Hd Hnd.
  destruct (allowed_guilds_run w data Hd) as (al & Hr & _ & Hal).
  rewrite Hr. simpl. rewrite tuples_of_self in Hal.
  - injection Hal as <-. rewrite strip_template_filter. reflexivity.
  - rewrite strip_template_filter. unfold dict_keys.
    apply NoDup_fmap_fst.
    + intros k v1 v2 H1 H2.
      apply list_elem_of_filter in H1 as [_ H1%list_elem_of_In].
      apply list_elem_of_filter in H2 as [_ H2%list_elem_of_In].
      pose proof (dict_get_NoDup k v1 data Hnd H1).
      pose proof (dict_get_NoDup k v2 data Hnd H2). congruence.
    + apply NoDup_filter.
      eapply NoDup_fmap_1. exact Hnd.
Qed.

(** *** The accessor on the parsed configuration file *)

Lemma dict_tuples_entries (l d : list (string * value)) :
  (forall k v, In (k, v) l -> dict_get k d = Some v) ->
  GoldyConfig.dict_tuples (dict_keys l) d =
    Ok (map (fun p => (VStr (fst p), snd p)) l).
Proof.
  unfold dict_keys.
  induction l as [|[k v] l IH]; intros H; simpl; [reflexivity|].
  rewrite (H k v) by (left; reflexivity).
  rewrite IH; [reflexivity|].
  intros. apply H. right. assumption.
Qed.

Lemma dict_tuples_self (d : list (string * value)) :
  NoDup (dict_keys d) ->
  GoldyConfig.dict_tuples (dict_keys d) d =
    Ok (map (fun p => (VStr (fst p), snd p)) d).
Proof.
  intros Hnd. apply dict_tuples_entries. intros k v Hin.
  apply dict_get_NoDup; assumption.
Qed.

Lemma NoDup_keys_filter {V} (P : string * V -> Prop)
  `{forall p, Decision (P p)} (d : list (string * V)) :
  NoDup (dict_keys d) -> NoDup (dict_keys (filter P d)).
Proof.
  unfold dict_keys. induction d as [|p d IH]; intros Hnd; [constructor|].
  simpl in Hnd. apply NoDup_cons in Hnd as [Hp Hnd].
  destruct (decide (P p)).
  - rewrite filter_cons_True by assumption. simpl. apply NoDup_cons.
    split; [|auto].
    intros Hin. apply Hp. apply list_elem_of_fmap in Hin as (q & Hq & Hin).
    apply list_elem_of_filter in Hin as [_ Hin].
    apply list_elem_of_fmap. eauto.
  - rewrite filter_cons_False by assumption. auto.
Qed.

(** The loop over the stored object raises neither for a missing key of
    its own nor the configuration error. *)
Lemma dict_tuples_no_config_error keys (d : list (string * value)) :
  GoldyConfig.dict_tuples keys d <> Raise GoldyBotError.
Proof.
  induction keys as [|k keys IH]; simpl; [discriminate|].
  destruct (dict_get k d); [|discriminate].
  destruct (GoldyConfig.dict_tuples keys d); [discriminate|exact IH].
Qed.

Lemma list_tuples_no_config_error keys (l : list value) :
  GoldyConfig.list_tuples keys l <> Raise GoldyBotError.
Proof.
  induction keys as [|k keys IH]; simpl; [discriminate|].
  destruct (GoldyConfig.as_index k) as [i|]; [|discriminate].
  unfold GoldyConfig.list_item.
  destruct (_ <? 0)%Z; [discriminate|].
  destruct (l !! _); [|discriminate].
  destruct (GoldyConfig.list_tuples keys l); [discriminate|exact IH].
Qed.

Lemma tuples_no_config_error data :
  GoldyConfig.tuples data <> Raise GoldyBotError.
Proof.
  destruct data as [| | | |s| |]; simpl; try discriminate.
  - destruct s; discriminate.
  - apply list_tuples_no_config_error.
  - apply dict_tuples_no_config_error.
Qed.

(** The configuration error comes from the [None] test alone. *)
Lemma config_error_iff json :
  fst (GoldyConfig.allowed_guilds json) = Raise GoldyBotError <->
  GoldyConfig.get ["goldy"; "allowed_guilds"] VNone json = VNone.
Proof.
  unfold GoldyConfig.allowed_guilds. cbv zeta.
  destruct (GoldyConfig.get ["goldy"; "allowed_guilds"] VNone json)
    as [| | | |s|l|d] eqn:Hg; simpl;
    try (split; [discriminate|discriminate]);
    try (split; [reflexivity|reflexivity]).
  - destruct (String.index 0 template_key s); simpl;
      split; try discriminate.
    intros H. destruct (tuples_no_config_error (VStr s)). exact H.
  - destruct (existsb _ l); simpl; split; try discriminate.
    intros H. destruct (list_tuples_no_config_error l l). exact H.
  - unfold GoldyConfig.del_item.
    destruct (dict_mem template_key d); simpl; split; try discriminate;
      intros H; exfalso; eapply dict_tuples_no_config_error; exact H.
Qed.

Lemma get_allowed_guilds_none json :
  GoldyConfig.get ["goldy"; "allowed_guilds"] VNone json = VNone <->
  GoldyConfig.lookup ["goldy"; "allowed_guilds"] json = None \/
  GoldyConfig.lookup ["goldy"; "allowed_guilds"] json = Some VNone.
Proof.
  unfold GoldyConfig.get.
  destruct (GoldyConfig.lookup ["goldy"; "allowed_guilds"] json) as [v|].
  - split; [intros ->; auto|]. intros [H|[= ->]]; [discriminate|reflexivity].
  - split; auto.
Qed.

(** What the accessor does when the key holds an object. *)
Lemma allowed_guilds_object json d :
  GoldyConfig.lookup ["goldy"; "allowed_guilds"] json = Some (VDict d) ->
  NoDup (dict_keys d) ->
  GoldyConfig.allowed_guilds json =
    (Ok (map (fun p => (VStr (fst p), snd p))
           (filter (fun p => fst p <> template_key) d)),
     if dict_mem template_key d
     then GoldyConfig.store (VDict (dict_del template_key d)) json
     else json).
Proof.
  intros Hl Hnd. unfold GoldyConfig.allowed_guilds, GoldyConfig.get.
  rewrite Hl. cbv zeta. cbn [GoldyConfig.contains GoldyConfig.del_item].
  destruct (dict_mem template_key d) eqn:E.
  - cbn [GoldyConfig.tuples]. rewrite dict_del_filter.
    rewrite dict_tuples_self; [reflexivity|].
    apply NoDup_keys_filter. exact Hnd.
  - cbn [GoldyConfig.tuples]. rewrite dict_mem_false_filter by exact E.
    rewrite dict_tuples_self by exact Hnd. reflexivity.
Qed.

Lemma dict_get_dict_set k v d :
  is_Some (dict_get k d) -> dict_get k (GoldyConfig.dict_set k v d) = Some v.
Proof.
  induction d as [|[k' v'] d IH]; simpl; [intros [x [=]]|].
  destruct (String.eqb k k') eqn:E; simpl; rewrite E; auto.
Qed.

(** The deletion reaches the loaded configuration: a later read finds the
    object without the entry. *)
Lemma lookup_store json d data' :
  GoldyConfig.lookup ["goldy"; "allowed_guilds"] json = Some (VDict d) ->
  GoldyConfig.lookup ["goldy"; "allowed_guilds"]
    (GoldyConfig.store data' json) = Some data'.
Proof.
  destruct json as [| | | | | |root]; try discriminate.
  cbn [GoldyConfig.lookup GoldyConfig.store].
  destruct (dict_get "goldy" root) as [section|] eqn:Hs; [|discriminate].
  destruct section as [| | | | | |section]; try discriminate.
  destruct (dict_get "allowed_guilds" section) as [v|] eqn:Ha;
    [|discriminate].
  intros _.
  rewrite (dict_get_dict_set "goldy" _ root) by (rewrite Hs; eauto).
  rewrite (dict_get_dict_set "allowed_guilds" _ section)
    by (rewrite Ha; eauto).
  reflexivity.
Qed.

(** C8, as amended: the accessor raises the configuration error exactly
    when the allowed-guild key is absent from the parsed configuration or
    holds [null], and the configuration is then left as it is.  When the
    key holds an object, the accessor returns the (guild id, label) pairs
    of that object in their order, the template entry left out, and a
    later read finds the object without that entry.  When the key holds a
    number or a truth value, the accessor raises [TypeError]. *)
Theorem allowed_guilds_of_config (json : value) :
  let data := GoldyConfig.lookup ["goldy"; "allowed_guilds"] json in
  (fst (GoldyConfig.allowed_guilds json) = Raise GoldyBotError <->
   data = None \/ data = Some VNone) /\
  (data = None \/ data = Some VNone ->
   snd (GoldyConfig.allowed_guilds json) = json) /\
  (forall d,
     data = Some (VDict d) -> NoDup (dict_keys d) ->
     fst (GoldyConfig.allowed_guilds json) =
       Ok (map (fun p => (VStr (fst p), snd p))
             (filter (fun p => fst p <> template_key) d)) /\
     GoldyConfig.lookup ["goldy"; "allowed_guilds"]
       (snd (GoldyConfig.allowed_guilds json)) =
       Some (VDict (filter (fun p => fst p <> template_key) d))) /\
  (forall v,
     data = Some v -> GoldyConfig.scalar v = true ->
     GoldyConfig.allowed_guilds json = (Raise TypeError, json)).
Proof.
  cbv zeta. split; [|split; [|split]].
  - rewrite config_error_iff. apply get_allowed_guilds_none.
  - intros H. apply get_allowed_guilds_none in H.
    unfold GoldyConfig.allowed_guilds. rewrite H. reflexivity.
  - intros d Hl Hnd. rewrite (allowed_guilds_object json d Hl Hnd).
    cbn [fst snd]. split; [reflexivity|].
    destruct (dict_mem template_key d) eqn:E.
    + rewrite (lookup_store json d _ Hl), dict_del_filter. reflexivity.
    + rewrite dict_mem_false_filter by exact E. exact Hl.
  - intros v Hl Hv. unfold GoldyConfig.allowed_guilds, GoldyConfig.get.
    rewrite Hl. destruct v; try discriminate; reflexivity.
Qed.

(** *** The world's setting and the parsed file *)

Lemma dict_get_labels k (d : list (string * string)) :
  dict_get k (map GoldyConfig.label_value d) = option_map VStr (dict_get k d).
Proof.
  induction d as [|[k' v] d IH]; simpl; [reflexivity|].
  destruct (String.eqb k k'); [reflexivity|exact IH].
Qed.

Lemma dict_mem_labels k (d : list (string * string)) :
  dict_mem k (map GoldyConfig.label_value d) = dict_mem k d.
Proof.
  unfold dict_mem. rewrite dict_get_labels. destruct (dict_get k d); reflexivity.
Qed.

Lemma dict_del_labels k (d : list (string * string)) :
  dict_del k (map GoldyConfig.label_value d) = map GoldyConfig.label_value (dict_del k d).
Proof.
  induction d as [|[k' v] d IH]; simpl; [reflexivity|].
  destruct (String.eqb k k'); simpl; rewrite IH; reflexivity.
Qed.

Lemma dict_keys_labels (d : list (string * string)) :
  dict_keys (map GoldyConfig.label_value d) = dict_keys d.
Proof.
  unfold dict_keys. rewrite map_map. apply map_ext. intros []. reflexivity.
Qed.

Lemma dict_tuples_labels keys (d : list (string * string)) :
  GoldyConfig.dict_tuples keys (map GoldyConfig.label_value d) =
    match tuples_of keys d with
    | Ok al => Ok (GoldyConfig.pair_values al)
    | Raise e => Raise e
    end.
Proof.
  induction keys as [|k keys IH]; simpl; [reflexivity|].
  rewrite dict_get_labels. destruct (dict_get k d); simpl; [|reflexivity].
  rewrite IH. destruct (tuples_of keys d); reflexivity.
Qed.

(** The accessor of the world is the accessor on the parsed file, for the
    files whose allowed-guild key is absent or holds an object of
    labels. *)
Lemma allowed_guilds_refines (w : World) :
  GoldyConfig.allowed_guilds
    (GoldyConfig.json_of (goldy_json_allowed_guilds w)) =
    (match fst (allowed_guilds w) with
     | Ok al => Ok (GoldyConfig.pair_values al)
     | Raise e => Raise e
     end,
     GoldyConfig.json_of (goldy_json_allowed_guilds (snd (allowed_guilds w)))).
Proof.
  destruct (goldy_json_allowed_guilds w) as [data|] eqn:Hd.
  - destruct (allowed_guilds_run w data Hd) as (al & Hr & _ & Hal).
    rewrite Hr. cbn [fst snd]. world_fields.
    unfold GoldyConfig.allowed_guilds, GoldyConfig.get, GoldyConfig.json_of.
    cbn [GoldyConfig.lookup dict_get String.eqb Ascii.eqb Bool.eqb].
    cbv zeta. cbn [GoldyConfig.contains GoldyConfig.del_item].
    rewrite dict_mem_labels.
    unfold strip_template in *.
    destruct (dict_mem template_key data) eqn:E.
    + cbn [GoldyConfig.tuples]. rewrite dict_del_labels, dict_keys_labels.
      rewrite dict_tuples_labels, Hal. reflexivity.
    + cbn [GoldyConfig.tuples]. rewrite dict_keys_labels.
      rewrite dict_tuples_labels, Hal. reflexivity.
  - rewrite (allowed_guilds_raises w Hd). cbn [fst snd]. rewrite Hd.
    reflexivity.
Qed.

(** ** Loading and unloading *)

Lemma set_http_requests_same w :
  set_http_requests (http_requests w ++ []) w = w.
Proof. destruct w. simpl. rewrite app_nil_r. reflexivity. Qed.

Lemma set_http_requests_twice l1 l2 w :
  set_http_requests (http_requests (set_http_requests l1 w) ++ l2)
    (set_http_requests l1 w)
  = set_http_requests (l1 ++ l2) w.
Proof. reflexivity. Qed.

Lemma application_id_run w :
  application_id w =
  (match application_data w with
   | Some d => Ok (app_id d)
   | None => Raise TypeError
   end, w).
Proof.
  unfold application_id. rewrite run_bind. unfold gets.
  destruct (application_data w); reflexivity.
Qed.

Lemma http_send_run r w :
  http_send r w =
  (match http_respond w (http_requests w) r with
   | Some a => Ok a
   | None => Raise RemoteError
   end, set_http_requests (http_requests w ++ [r]) w).
Proof.
  unfold http_send. destruct (http_respond w (http_requests w) r); reflexivity.
Qed.

(** The registration loop only talks to the remote platform: it leaves
    one request per guild and returns one handle per guild. *)
Lemma create_slash_loop_ok cmd gs acc w l w' :
  create_slash_loop cmd gs acc w = (Ok l, w') ->
  exists l' reqs,
    l = acc ++ l' /\ map fst l' = map fst gs /\
    w' = set_http_requests (http_requests w ++ reqs) w /\
    (gs <> [] -> exists a, application_data w = Some a).
Proof.
  revert acc w. induction gs as [|g gs IH]; intros acc w H; simpl in H.
  - injection H as <- <-. exists [], []. rewrite app_nil_r.
    rewrite set_http_requests_same. repeat split; auto. congruence.
  - rewrite run_bind, application_id_run in H.
    destruct (application_data w) as [a|] eqn:Ha; [|discriminate].
    rewrite run_bind in H. unfold http_send in H.
    destruct (http_respond w (http_requests w) _) as [d|]; [|discriminate].
    apply IH in H as (l' & reqs & -> & Hm & -> & _).
    exists ((fst g, d) :: l'),
      (CreateGuildApplicationCommand (app_id a) (fst g) (name cmd)
         (description cmd) :: reqs).
    rewrite <- app_assoc. simpl. rewrite Hm.
    repeat split; eauto.
    rewrite <- app_assoc. reflexivity.
Qed.

(** The deletion loop, when the remote platform accepts deletions. *)
Lemma remove_slash_loop_ok w a (l : list (string * ApplicationCommandData)) :
  accepts_deletions w ->
  (l <> [] -> application_data w = Some a) ->
  for_each l (fun slash_command =>
      app ← application_id;
      http_send (DeleteGuildApplicationCommand
                   app (fst slash_command) (acd_id (snd slash_command))) ;;
      ret tt) w
  = (Ok tt,
     set_http_requests (http_requests w ++ map (deletion_of (app_id a)) l) w).
Proof.
  intros Hacc. revert w Hacc. induction l as [|h l IH]; intros w Hacc Ha; simpl.
  - rewrite set_http_requests_same. reflexivity.
  - rewrite run_bind, run_bind, application_id_run.
    rewrite Ha by discriminate.
    rewrite run_bind. unfold http_send.
    destruct (http_respond w (http_requests w) _) as [d|] eqn:Hr;
      [|exfalso; exact (Hacc _ _ _ _ Hr)].
    change ((ret tt : M unit) ?w) with (Ok tt, w). cbv beta iota.
    rewrite IH.
    + simpl. rewrite <- app_assoc. reflexivity.
    + exact Hacc.
    + intros _. simpl. apply Ha. discriminate.
Qed.

Lemma extension_frame cmd w : snd (extension cmd w) = w.
Proof.
  unfold extension. destruct (in_extension cmd); [|reflexivity].
  rewrite run_bind. unfold lift.
  destruct (extension_name_of (func cmd)); [|reflexivity].
  rewrite run_bind. unfold gets.
  destruct (cache_lookup a (extensions_cache w)); reflexivity.
Qed.

Lemma extension_same_cache cmd w w2 :
  extensions_cache w = extensions_cache w2 ->
  fst (extension cmd w) = fst (extension cmd w2).
Proof.
  intros Hc. unfold extension. destruct (in_extension cmd); [|reflexivity].
  rewrite !run_bind. unfold lift.
  destruct (extension_name_of (func cmd)); [|reflexivity].
  rewrite !run_bind. unfold gets. rewrite Hc.
  destruct (cache_lookup a (extensions_cache w2)); reflexivity.
Qed.

Lemma extension_resolved cmd w w2 r :
  fst (extension cmd w2) = Ok r ->
  extensions_cache w2 = extensions_cache w ->
  exists ext, fst (extension cmd w) = Ok ext.
Proof.
  intros Hr Hc. exists r. rewrite <- Hr. symmetry.
  apply extension_same_cache. exact Hc.
Qed.

Lemma extension_run cmd w : extension cmd w = (fst (extension cmd w), w).
Proof.
  rewrite <- (extension_frame cmd w) at 3. apply surjective_pairing.
Qed.

(** What a successful [create_slash] leaves behind. *)
Lemma create_slash_ok w c cmd l w1 :
  heap w !! c = Some cmd ->
  create_slash c w = (Ok l, w1) ->
  exists reqs,
    w1 = set_heap
           (alter (with_list_of_application_command_data (Some l)) c (heap w))
           (set_event_handlers
              (event_handlers w ++
                 [("INTERACTION_CREATE", CommandCallback c SLASH_CMD)])
              (set_http_requests (http_requests w ++ reqs) w)) /\
    map fst l = map fst (guilds_allowed_guilds (guilds w)) /\
    (l <> [] -> exists a, application_data w = Some a).
Proof.
  intros Hc H. unfold create_slash in H.
  rewrite run_bind, (get_command_ok _ _ _ Hc) in H.
  rewrite run_bind in H. unfold gets in H.
  rewrite run_bind in H.
  destruct (create_slash_loop cmd _ [] w) as [[l0|e] w0] eqn:Hl;
    [|discriminate].
  apply create_slash_loop_ok in Hl as (l' & reqs & -> & Hm & -> & Ha).
  simpl in H. injection H as <- <-.
  exists reqs. split; [reflexivity|]. split; [exact Hm|].
  intros Hne. apply Ha. intros Hg. rewrite Hg in Hm.
  destruct l'; [congruence | discriminate].
Qed.

(** What a successful [load] leaves behind, field by field. *)
Lemma load_ok w c cmd w1 :
  heap w !! c = Some cmd ->
  load c w = (Ok tt, w1) ->
  exists l reqs,
    event_handlers w1 =
      event_handlers w ++
      (if allow_slash_cmd cmd
       then [("INTERACTION_CREATE", CommandCallback c SLASH_CMD)] else []) ++
      (if allow_prefix_cmd cmd
       then [("MESSAGE_CREATE", CommandCallback c PREFIX_CMD)] else []) /\
    heap w1 =
      alter (with_loaded true) c
        (if allow_slash_cmd cmd
         then alter (with_list_of_application_command_data (Some l)) c (heap w)
         else heap w) /\
    http_requests w1 = http_requests w ++ reqs /\
    (allow_slash_cmd cmd = false -> reqs = []) /\
    (allow_slash_cmd cmd = true -> l <> [] ->
     exists a, application_data w = Some a) /\
    http_respond w1 = http_respond w /\
    application_data w1 = application_data w /\
    commands_cache w1 = commands_cache w /\
    extensions_cache w1 = extensions_cache w /\
    guilds w1 = guilds w /\
    goldy_json_allowed_guilds w1 = goldy_json_allowed_guilds w /\
    invocations w1 = invocations w /\
    (exists ext, fst (extension cmd w) = Ok ext).
Proof.
  intros Hc H. unfold load in H.
  rewrite run_bind, (get_command_ok _ _ _ Hc) in H.
  rewrite run_bind in H.
  destruct (allow_slash_cmd cmd) eqn:Has; simpl in H.
  - rewrite run_bind in H.
    destruct (create_slash c w) as [[l|e] ws] eqn:Hs; [|discriminate].
    destruct (create_slash_ok _ _ _ _ _ Hc Hs) as (reqs & -> & _ & Ha).
    exists l, reqs.
    change ((ret tt : M unit) ?w) with (Ok tt, w) in H. cbv beta iota in H.
    rewrite run_bind in H.
    destruct (allow_prefix_cmd cmd) eqn:Hap; simpl in H.
    + rewrite run_bind, extension_run in H.
      destruct (fst (extension cmd _)) as [[e|]|] eqn:He; [| |discriminate];
        simpl in H; injection H as <-; simpl;
        rewrite <- ?app_assoc; repeat split; auto;
        first [congruence
              | eapply extension_resolved; [exact He | reflexivity]
              | eexists; reflexivity].
    + rewrite run_bind, extension_run in H.
      destruct (fst (extension cmd _)) as [[e|]|] eqn:He; [| |discriminate];
        simpl in H; injection H as <-; simpl;
        rewrite ?app_nil_r; repeat split; auto;
        first [congruence
              | eapply extension_resolved; [exact He | reflexivity]
              | eexists; reflexivity].
  - exists [], [].
    rewrite run_bind in H.
    destruct (allow_prefix_cmd cmd) eqn:Hap; simpl in H.
    + rewrite run_bind, extension_run in H.
      destruct (fst (extension cmd _)) as [[e|]|] eqn:He; [| |discriminate];
        simpl in H; injection H as <-; simpl;
        rewrite ?app_nil_r; repeat split; auto;
        first [congruence
              | eapply extension_resolved; [exact He | reflexivity]
              | eexists; reflexivity].
    + rewrite run_bind, extension_run in H.
      destruct (fst (extension cmd _)) as [[e|]|] eqn:He; [| |discriminate];
        simpl in H; injection H as <-; simpl;
        rewrite ?app_nil_r; repeat split; auto;
        first [congruence
              | eapply extension_resolved; [exact He | reflexivity]
              | eexists; reflexivity].
Qed.


Lemma subscriptions_app c w l :
  subscriptions c (set_event_handlers (event_handlers w ++ l) w) =
  subscriptions c w ++ filter (fun h => is_callback_of c h = true) l.
Proof. unfold subscriptions. simpl. apply filter_app. Qed.


Lemma subscriptions_own c e t :
  filter (fun h => is_callback_of c h = true) [(e, CommandCallback c t)] =
  [(e, CommandCallback c t)].
Proof.
  rewrite filter_cons_True; [reflexivity|].
  unfold is_callback_of. simpl. apply Nat.eqb_refl.
Qed.

(** C4, as amended: loading a command that allows prefix invocation only,
    and that had no event-bus subscription, completes as soon as its
    extension (if it has one) resolves; the command then has exactly one
    subscription, for the message-create event class, and no request has
    gone to the remote platform. *)
Theorem load_prefix_only (w : World) (c : nat) (cmd : Command)
  (ext : option nat) :
  heap w !! c = Some cmd ->
  allow_prefix_cmd cmd = true ->
  allow_slash_cmd cmd = false ->
  subscriptions c w = [] ->
  fst (extension cmd w) = Ok ext ->
  exists w1,
    load c w = (Ok tt, w1) /\
    subscriptions c w1 = [("MESSAGE_CREATE", CommandCallback c PREFIX_CMD)] /\
    http_requests w1 = http_requests w.
Proof.
  intros Hc Hap Has Hsub He.
  set (wb := set_event_handlers
               (event_handlers w ++
                  [("MESSAGE_CREATE", CommandCallback c PREFIX_CMD)]) w).
  assert (Hb : extension cmd wb = (Ok ext, wb)).
  { rewrite extension_run. f_equal. rewrite <- He.
    apply extension_same_cache. reflexivity. }
  assert (Hs : subscriptions c wb =
               [("MESSAGE_CREATE", CommandCallback c PREFIX_CMD)]).
  { unfold wb. rewrite subscriptions_app, Hsub, subscriptions_own.
    reflexivity. }
  unfold load. rewrite run_bind, (get_command_ok _ _ _ Hc).
  rewrite Has, Hap. rewrite run_bind. simpl. rewrite run_bind.
  change (create_normal c w) with (Ok tt, wb). cbv beta iota.
  rewrite run_bind, Hb.
  destruct ext as [e|]; simpl; eexists; (split; [reflexivity|]);
    split; first [exact Hs | reflexivity].
Qed.

(** C9: while the slash handles of a command that allows slash invocation
    are still [None], that is, as long as no [create_slash] has completed
    for it, [unload] and [delete] raise ([TypeError], from iterating
    [None]) and change nothing. *)
Theorem unload_before_load_raises (w : World) (c : nat) (cmd : Command) :
  heap w !! c = Some cmd ->
  allow_slash_cmd cmd = true ->
  list_of_application_command_data cmd = None ->
  unload c w = (Raise TypeError, w) /\ delete c w = (Raise TypeError, w).
Proof.
  intros Hc Has Hl.
  assert (Hu : unload c w = (Raise TypeError, w)).
  { unfold unload. rewrite run_bind, (get_command_ok _ _ _ Hc).
    rewrite run_bind, Has. simpl. unfold remove_slash.
    rewrite run_bind, (get_command_ok _ _ _ Hc), Hl. reflexivity. }
  split; [exact Hu|].
  unfold delete. rewrite run_bind, Hu. reflexivity.
Qed.

(** ** Deleting *)

(** Whatever the remote platform answers, the deletion loop touches the
    request log only. *)
Lemma remove_slash_loop_frame (l : list (string * ApplicationCommandData)) w :
  exists reqs,
    snd (for_each l (fun slash_command =>
           app ← application_id;
           http_send (DeleteGuildApplicationCommand
                        app (fst slash_command) (acd_id (snd slash_command))) ;;
           ret tt) w)
    = set_http_requests (http_requests w ++ reqs) w.
Proof.
  revert w. induction l as [|h l IH]; intros w; simpl.
  - exists []. rewrite set_http_requests_same. reflexivity.
  - rewrite run_bind, run_bind, application_id_run.
    destruct (application_data w) as [a|].
    + rewrite run_bind, http_send_run.
      destruct (http_respond w (http_requests w) _) as [d|].
      * change ((ret tt : M unit) ?w) with (Ok tt, w). cbv beta iota.
        destruct (IH (set_http_requests
                        (http_requests w ++
                           [DeleteGuildApplicationCommand (app_id a) (fst h)
                              (acd_id (snd h))]) w)) as [reqs Hr].
        rewrite Hr. world_fields.
        exists (DeleteGuildApplicationCommand (app_id a) (fst h)
                  (acd_id (snd h)) :: reqs).
        rewrite <- app_assoc. reflexivity.
      * simpl. eexists. reflexivity.
    + exists []. simpl. rewrite set_http_requests_same. reflexivity.
Qed.

Lemma remove_listener_cases cb e w :
  (exists hs, remove_listener cb e w = (Ok tt, set_event_handlers hs w)) \/
  remove_listener cb e w = (Raise ValueError, w).
Proof.
  unfold remove_listener. rewrite run_bind. unfold gets.
  destruct (list_remove handler_eqb (e, cb) (event_handlers w)) as [hs|].
  - left. exists hs. reflexivity.
  - right. reflexivity.
Qed.

(** [unload] leaves the registry alone and keeps the command's name; when
    it completes, the command is still found under its identity. *)
Lemma unload_frame w c cmd :
  heap w !! c = Some cmd ->
  commands_cache (snd (unload c w)) = commands_cache w /\
  exists cmd1,
    heap (snd (unload c w)) !! c = Some cmd1 /\ name cmd1 = name cmd.
Proof.
  intros Hc.
  assert (Hfinal : forall w0, heap w0 = heap w ->
            commands_cache w0 = commands_cache w ->
            commands_cache (snd (update_command c (with_loaded false) w0))
              = commands_cache w /\
            exists cmd1,
              heap (snd (update_command c (with_loaded false) w0)) !! c
                = Some cmd1 /\ name cmd1 = name cmd).
  { intros w0 Hh Hcc. simpl. split; [exact Hcc|].
    exists (with_loaded false cmd). rewrite Hh, list_lookup_alter_eq, Hc.
    split; reflexivity. }
  assert (Hstay : forall w0, heap w0 = heap w ->
            commands_cache w0 = commands_cache w ->
            commands_cache w0 = commands_cache w /\
            exists cmd1, heap w0 !! c = Some cmd1 /\ name cmd1 = name cmd).
  { intros w0 Hh Hcc. split; [exact Hcc|]. exists cmd. rewrite Hh. auto. }
  assert (Hprefix : forall w0, heap w0 = heap w ->
            commands_cache w0 = commands_cache w ->
            let m := when (allow_prefix_cmd cmd) (remove_normal c) ;;
                     update_command c (with_loaded false) in
            commands_cache (snd (m w0)) = commands_cache w /\
            exists cmd1,
              heap (snd (m w0)) !! c = Some cmd1 /\ name cmd1 = name cmd).
  { intros w0 Hh Hcc m. subst m. rewrite run_bind.
    destruct (allow_prefix_cmd cmd); simpl.
    - destruct (remove_listener_cases (CommandCallback c PREFIX_CMD)
                  "MESSAGE_CREATE" w0) as [[hs Hr]|Hr];
        unfold remove_normal; rewrite Hr.
      + apply Hfinal; assumption.
      + apply Hstay; assumption.
    - apply Hfinal; assumption. }
  unfold unload. rewrite run_bind, (get_command_ok _ _ _ Hc).
  rewrite run_bind.
  destruct (allow_slash_cmd cmd); simpl.
  - unfold remove_slash. rewrite run_bind, (get_command_ok _ _ _ Hc).
    destruct (list_of_application_command_data cmd) as [l|].
    + rewrite run_bind.
      destruct (remove_slash_loop_frame l w) as [reqs Hr].
      destruct (for_each l _ w) as [[[]|e] w0] eqn:Hf; simpl in Hr; subst w0.
      * destruct (remove_listener_cases (CommandCallback c SLASH_CMD)
                    "INTERACTION_CREATE"
                    (set_http_requests (http_requests w ++ reqs) w))
          as [[hs Hl]|Hl]; rewrite Hl.
        -- apply Hprefix; reflexivity.
        -- apply Hstay; reflexivity.
      * apply Hstay; reflexivity.
    + simpl. apply Hstay; reflexivity.
  - apply Hprefix; reflexivity.
Qed.

(** [delete] is [unload] followed by the removal from the registry. *)
Lemma delete_run w c cmd :
  heap w !! c = Some cmd ->
  delete c w =
  match unload c w with
  | (Ok _, w1) =>
      match list_remove entry_eqb (name cmd, c) (commands_cache w) with
      | Some cache' => (Ok tt, set_commands_cache cache' w1)
      | None => (Raise ValueError, w1)
      end
  | (Raise e, w1) => (Raise e, w1)
  end.
Proof.
  intros Hc. destruct (unload_frame w c cmd Hc) as (Hcc & cmd1 & Hc1 & Hn).
  unfold delete. rewrite run_bind.
  destruct (unload c w) as [[[]|e] w1]; [|reflexivity].
  simpl in Hcc, Hc1.
  rewrite run_bind, (get_command_ok _ _ _ Hc1).
  rewrite run_bind. unfold gets. rewrite Hcc, Hn.
  destruct (list_remove entry_eqb (name cmd, c) (commands_cache w));
    reflexivity.
Qed.

Lemma cache_lookup_None {A} n (l : list (string * A)) :
  filter (fun p => fst p = n) l = [] -> cache_lookup n l = None.
Proof.
  induction l as [|[n' x] l IH]; simpl; [reflexivity|].
  destruct (String.eqb n' n) eqn:E.
  - apply String.eqb_eq in E. subst n'.
    rewrite filter_cons_True by reflexivity. discriminate.
  - apply String.eqb_neq in E.
    rewrite filter_cons_False by (simpl; exact E). exact IH.
Qed.

Lemma cache_lookup_Some {A} n (l : list (string * A)) e :
  cache_lookup n l = Some e -> In e l /\ fst e = n.
Proof.
  induction l as [|[n' x] l IH]; simpl; [discriminate|].
  destruct (String.eqb n' n) eqn:E.
  - apply String.eqb_eq in E. intros [= <-]. auto.
  - intros H. destruct (IH H). auto.
Qed.

(** C6, as amended: [delete] runs [unload] and, once that has completed,
    takes the first (name, self) pair out of the registry; an exception of
    [unload] is passed on, the registry untouched; when the pair is not in
    the registry, [delete] raises ([ValueError]) after [unload] has taken
    effect. *)
Theorem delete_spec (w : World) (c : nat) (cmd : Command) :
  heap w !! c = Some cmd ->
  (forall e w1,
     unload c w = (Raise e, w1) ->
     delete c w = (Raise e, w1) /\ commands_cache w1 = commands_cache w) /\
  (forall w1,
     unload c w = (Ok tt, w1) ->
     In (name cmd, c) (commands_cache w) ->
     exists l1 l2,
       commands_cache w = l1 ++ (name cmd, c) :: l2 /\
       ~ In (name cmd, c) l1 /\
       delete c w = (Ok tt, set_commands_cache (l1 ++ l2) w1)) /\
  (forall w1,
     unload c w = (Ok tt, w1) ->
     ~ In (name cmd, c) (commands_cache w) ->
     delete c w = (Raise ValueError, w1)).
Proof.
  intros Hc. pose proof (delete_run w c cmd Hc) as Hd.
  destruct (unload_frame w c cmd Hc) as (Hcc & _).
  split; [|split].
  - intros e w1 Hu. rewrite Hu in Hd, Hcc. auto.
  - intros w1 Hu Hin. rewrite Hu in Hd.
    destruct (list_remove entry_eqb (name cmd, c) (commands_cache w))
      as [cache'|] eqn:Hr.
    + destruct (list_remove_Some _ _ _ _ entry_eqb_eq Hr)
        as (l1 & l2 & H1 & -> & Hn).
      exists l1, l2. auto.
    + apply (list_remove_None _ _ _ entry_eqb_eq) in Hr. contradiction.
  - intros w1 Hu Hn. rewrite Hu in Hd.
    apply (list_remove_None _ _ _ entry_eqb_eq) in Hn.
    rewrite Hn in Hd. exact Hd.
Qed.

(** C5, as amended: for a command that is the only entry of the registry
    under its name, after [delete] has completed the linear first-match
    lookup of the registry by that name finds nothing. *)
Theorem delete_lookup (w : World) (c : nat) (cmd : Command) (w' : World) :
  heap w !! c = Some cmd ->
  filter (fun p => fst p = name cmd) (commands_cache w) = [(name cmd, c)] ->
  delete c w = (Ok tt, w') ->
  cache_lookup (name cmd) (commands_cache w') = None.
Proof.
  intros Hc Hone Hd. rewrite (delete_run w c cmd Hc) in Hd.
  destruct (unload c w) as [[[]|e] w1]; [|discriminate].
  destruct (list_remove entry_eqb (name cmd, c) (commands_cache w))
    as [cache'|] eqn:Hr; [|discriminate].
  injection Hd as <-. world_fields.
  destruct (list_remove_Some _ _ _ _ entry_eqb_eq Hr)
    as (l1 & l2 & H1 & -> & _).
  rewrite H1, filter_app, filter_cons_True in Hone by reflexivity.
  apply cache_lookup_None. rewrite filter_app.
  apply app_eq_unit in Hone as [[H0 H2]|[_ H2]]; [|discriminate].
  injection H2 as H2. rewrite H0, H2. reflexivity.
Qed.

(** ** Dispatch *)

Lemma world_same w :
  set_invocations (invocations w ++ [])
    (set_goldy_json_allowed_guilds (goldy_json_allowed_guilds w) w) = w.
Proof. destruct w. simpl. rewrite app_nil_r. reflexivity. Qed.

Lemma only_calls_pure {A} c (m : M A) :
  (forall w, snd (m w) = w) -> only_calls c m.
Proof.
  intros H w. exists (goldy_json_allowed_guilds w), [].
  rewrite H, world_same. auto.
Qed.

Lemma only_calls_ret {A} c (a : A) : only_calls c (ret a).
Proof. apply only_calls_pure. reflexivity. Qed.

Lemma only_calls_raise {A} c e : only_calls c (raise e : M A).
Proof. apply only_calls_pure. reflexivity. Qed.

Lemma only_calls_lift {A} c (r : result A) : only_calls c (lift r).
Proof. apply only_calls_pure. reflexivity. Qed.

Lemma only_calls_gets {A} c (f : World -> A) : only_calls c (gets f).
Proof. apply only_calls_pure. reflexivity. Qed.

Lemma only_calls_get_command c c' : only_calls c (get_command c').
Proof.
  apply only_calls_pure. intros w. unfold get_command.
  destruct (heap w !! c'); reflexivity.
Qed.

Lemma only_calls_extension c cmd : only_calls c (extension cmd).
Proof. apply only_calls_pure. apply extension_frame. Qed.

Lemma only_calls_guild_prefix c g : only_calls c (guild_prefix g).
Proof. apply only_calls_pure. intros w. destruct g; reflexivity. Qed.

Lemma only_calls_bind {A B} c (m : M A) (k : A -> M B) :
  only_calls c m -> (forall a, only_calls c (k a)) -> only_calls c (m ≫= k).
Proof.
  intros Hm Hk w. rewrite run_bind.
  destruct (Hm w) as (j & calls & Hw & Hf & Hj).
  destruct (m w) as [[a|e] w1]; simpl in Hw; subst w1.
  - destruct (Hk a (set_invocations (invocations w ++ calls)
                      (set_goldy_json_allowed_guilds j w)))
      as (j2 & calls2 & Hw2 & Hf2 & Hj2).
    cbn [goldy_json_allowed_guilds set_invocations
           set_goldy_json_allowed_guilds] in Hj2.
    exists j2, (calls ++ calls2). rewrite Hw2. world_fields.
    rewrite app_assoc. split; [reflexivity|].
    split; [apply Forall_app; auto | congruence].
  - exists j, calls. auto.
Qed.

Lemma only_calls_when c b m : only_calls c m -> only_calls c (when b m).
Proof. intros H. destruct b; [exact H | apply only_calls_ret]. Qed.

Lemma only_calls_call_func c ext platter :
  only_calls c (call_func c ext platter).
Proof.
  intros w. exists (goldy_json_allowed_guilds w),
    [{| call_command := c; call_extension := ext; call_platter := platter |}].
  split; [destruct w; reflexivity|]. split; [|reflexivity].
  repeat constructor.
Qed.

Lemma only_calls_run_callback c cmd platter :
  only_calls c (run_callback c cmd platter).
Proof.
  unfold run_callback. destruct (in_extension cmd).
  - apply only_calls_bind; [apply only_calls_extension|].
    intros ext. apply only_calls_call_func.
  - apply only_calls_call_func.
Qed.

Lemma only_calls_allowed_guilds c : only_calls c allowed_guilds.
Proof.
  intros w. destruct (goldy_json_allowed_guilds w) as [data|] eqn:Hd.
  - destruct (allowed_guilds_run w data Hd) as (al & Hr & _).
    rewrite Hr. exists (Some (strip_template data)), [].
    split; [destruct w; simpl; rewrite app_nil_r; reflexivity|].
    split; [constructor|]. simpl. rewrite strip_template_idem. reflexivity.
  - rewrite (allowed_guilds_raises w Hd).
    exists None, []. rewrite <- Hd, world_same. auto.
Qed.

Ltac only_calls_step :=
  first
    [ apply only_calls_ret | apply only_calls_raise | apply only_calls_lift
    | apply only_calls_gets | apply only_calls_get_command
    | apply only_calls_allowed_guilds | apply only_calls_guild_prefix
    | apply only_calls_run_callback
    | apply only_calls_when
    | apply only_calls_bind; [|intros ?]
    | match goal with
      | |- only_calls _ (if ?b then _ else _) => destruct b
      end ].

Lemma only_calls_invoke c data t : only_calls c (invoke c data t).
Proof.
  unfold invoke. cbv zeta. repeat only_calls_step.
Qed.

Lemma in_strs_true g l :
  in_strs g l = true <-> exists s, g = VStr s /\ In s l.
Proof.
  unfold in_strs. rewrite existsb_exists. split.
  - intros (s & Hin & He). destruct g; try discriminate.
    apply String.eqb_eq in He. subst. eauto.
  - intros (s & -> & Hin). exists s. split; [exact Hin|].
    simpl. apply String.eqb_refl.
Qed.

Lemma eq_str_true v s : eq_str v s = true <-> v = VStr s.
Proof.
  destruct v; simpl; try (split; [discriminate | intros [=]]).
  rewrite String.eqb_eq. split; [intros ->; reflexivity | intros [= ->]; auto].
Qed.

Lemma allowed_guilds_stripped w data al :
  goldy_json_allowed_guilds w = Some data ->
  tuples_of (dict_keys (strip_template data)) (strip_template data) = Ok al ->
  allowed_guilds w =
    (Ok al, set_goldy_json_allowed_guilds (Some (strip_template data)) w).
Proof.
  intros Hd Ht. destruct (allowed_guilds_run w data Hd) as (al' & Hr & _ & Ht').
  rewrite Ht in Ht'. injection Ht' as <-. exact Hr.
Qed.

(** The handler of a message that carries a guild id: it ends without an
    exception, and calls the callback exactly when the message is a prefix
    invocation of the command. *)
Lemma invoke_prefix_decision w c cmd d data al g :
  heap w !! c = Some cmd ->
  goldy_json_allowed_guilds w = Some data ->
  tuples_of (dict_keys (strip_template data)) (strip_template data) = Ok al ->
  (forall s, In s (map fst al) -> is_Some (get_guild (guilds w) (VStr s))) ->
  message_data d ->
  (exists ext, fst (extension cmd w) = Ok ext) ->
  dict_get "guild_id" d = Some g ->
  let wj := set_goldy_json_allowed_guilds (Some (strip_template data)) w in
  (prefix_match al (guilds w) cmd d /\
   exists ext,
     invoke c (VDict d) PREFIX_CMD w =
       (Ok tt,
        set_invocations
          (invocations w ++
             [{| call_command := c; call_extension := ext;
                 call_platter := prefix_platter c d |}]) wj)) \/
  (~ prefix_match al (guilds w) cmd d /\
   invoke c (VDict d) PREFIX_CMD w = (Ok tt, wj)).
Proof.
  intros Hc Hd Ht Hg (Hcontent & a & u & n & Hau & Hu & Hn) [ext He] Hgid wj.
  destruct Hcontent as [content Hcontent].
  pose proof (allowed_guilds_stripped w data al Hd Ht) as Hal.
  fold wj in Hal.
  destruct (invoke c (VDict d) PREFIX_CMD w) as [r w'] eqn:Hinv.
  unfold invoke in Hinv. rewrite run_bind, (get_command_ok _ _ _ Hc) in Hinv.
  rewrite run_bind in Hinv. unfold lift in Hinv. cbn [subscript] in Hinv.
  rewrite Hgid, Hcontent, Hau in Hinv.
  rewrite run_bind, Hal in Hinv.
  destruct (in_strs g (map fst al)) eqn:Hin.
  - apply in_strs_true in Hin as (s & -> & Hs).
    destruct (Hg s Hs) as [guild Hguild].
    cbv zeta in Hinv. rewrite run_bind in Hinv.
    rewrite run_bind in Hinv. unfold gets in Hinv.
    change (guilds wj) with (guilds w) in Hinv. rewrite Hguild in Hinv.
    cbn [platter_type PlatterType_value Z.eqb when guild_prefix] in Hinv.
    rewrite run_bind, run_bind in Hinv.
    change ((ret (prefix guild) : M string) wj)
      with (Ok (prefix guild), wj) in Hinv.
    cbv beta iota in Hinv. rewrite run_bind in Hinv.
    destruct (eq_str content (prefix guild +:+ name cmd)) eqn:Heq.
    + apply eq_str_true in Heq. subst content.
      left. split; [exists s, guild; auto|].
      repeat first
        [ rewrite run_bind in Hinv | progress cbn [subscript] in Hinv
        | rewrite Hu in Hinv | rewrite Hn in Hinv ].
      unfold run_callback in Hinv.
      assert (Hext : extension cmd wj = (Ok ext, wj)).
      { rewrite extension_run. f_equal. rewrite <- He.
        apply extension_same_cache. reflexivity. }
      destruct (in_extension cmd).
      * rewrite run_bind, Hext in Hinv. exists ext.
        rewrite <- Hinv. reflexivity.
      * exists None. rewrite <- Hinv. reflexivity.
    + right. split; [|rewrite <- Hinv; reflexivity].
      intros (s' & guild' & Hs' & _ & Hg' & Hc').
      rewrite Hgid in Hs'. injection Hs' as <-.
      rewrite Hguild in Hg'. injection Hg' as <-.
      rewrite Hcontent in Hc'. injection Hc' as ->.
      simpl in Heq. rewrite String.eqb_refl in Heq. discriminate.
  - right. split; [|rewrite <- Hinv; reflexivity].
    intros (s & guild & Hs & Hins & _).
    rewrite Hgid in Hs. injection Hs as ->.
    assert (in_strs (VStr s) (map fst al) = true)
      by (apply in_strs_true; eauto).
    congruence.
Qed.

Lemma invoke_no_guild_id w c cmd d t :
  heap w !! c = Some cmd ->
  dict_get "guild_id" d = None ->
  invoke c (VDict d) t w = (Raise (KeyError "guild_id"), w).
Proof.
  intros Hc Hg. unfold invoke. rewrite run_bind, (get_command_ok _ _ _ Hc).
  rewrite run_bind. unfold lift. cbn [subscript]. rewrite Hg. reflexivity.
Qed.

Lemma invoke_not_allowed w c cmd d t g al w' :
  heap w !! c = Some cmd ->
  dict_get "guild_id" d = Some g ->
  allowed_guilds w = (Ok al, w') ->
  in_strs g (map fst al) = false ->
  invoke c (VDict d) t w = (Ok tt, w').
Proof.
  intros Hc Hg Hal Hin. unfold invoke.
  rewrite run_bind, (get_command_ok _ _ _ Hc).
  rewrite run_bind. unfold lift at 1. cbn [subscript]. rewrite Hg.
  rewrite run_bind, Hal, Hin. reflexivity.
Qed.

Lemma run_tasks_app ls1 ls2 data w :
  run_tasks (ls1 ++ ls2) data w =
  (fst (run_tasks ls1 data w) ++
     fst (run_tasks ls2 data (snd (run_tasks ls1 data w))),
   snd (run_tasks ls2 data (snd (run_tasks ls1 data w)))).
Proof.
  revert w. induction ls1 as [|l ls1 IH]; intros w; simpl.
  - destruct (run_tasks ls2 data w). reflexivity.
  - destruct (run_listener l data w) as [r w1]. rewrite IH.
    destruct (run_tasks ls1 data w1) as [rs1 w2]. reflexivity.
Qed.

(** C10: the handler of any command raises [KeyError] on a payload
    without a [guild_id] key, and nothing else happens; on a payload whose
    guild id is not among the allowed guilds it ends silently, without
    calling the callback. *)
Theorem invoke_guild_id_guard (w : World) (c : nat) (cmd : Command)
  (d : list (string * value)) (t : PlatterType) :
  heap w !! c = Some cmd ->
  (dict_get "guild_id" d = None ->
   invoke c (VDict d) t w = (Raise (KeyError "guild_id"), w)) /\
  (forall g al w',
     dict_get "guild_id" d = Some g ->
     allowed_guilds w = (Ok al, w') ->
     in_strs g (map fst al) = false ->
     invoke c (VDict d) t w = (Ok tt, w') /\
     invocations w' = invocations w).
Proof.
  intros Hc. split.
  - apply (invoke_no_guild_id w c cmd d t Hc).
  - intros g al w' Hg Hal Hin.
    split; [eapply invoke_not_allowed; eassumption|].
    destruct (goldy_json_allowed_guilds w) as [data|] eqn:Hd.
    + destruct (allowed_guilds_run w data Hd) as (al' & Hr & _).
      rewrite Hr in Hal. injection Hal as _ <-. reflexivity.
    + rewrite (allowed_guilds_raises w Hd) in Hal. discriminate.
Qed.

(** *** Loading makes a command listen, and it goes on listening *)

Lemma load_listening w c cmd w1 :
  heap w !! c = Some cmd ->
  bus_discipline w ->
  load c w = (Ok tt, w1) ->
  bus_discipline w1 /\
  exists cmd1,
    heap w1 !! c = Some cmd1 /\ name cmd1 = name cmd /\
    (allow_prefix_cmd cmd = true ->
     listening c cmd1 PREFIX_CMD "MESSAGE_CREATE" w1) /\
    (allow_slash_cmd cmd = true ->
     listening c cmd1 SLASH_CMD "INTERACTION_CREATE" w1).
Proof.
  intros Hc Hbus Hload.
  destruct (load_ok _ _ _ _ Hc Hload)
    as (l & reqs & Hev & Hheap & _ & _ & _ & _ & _ & _ & Hcache & _ & _ & _
        & Hext).
  assert (Hbus1 : bus_discipline w1).
  { intros e c' t Hin. rewrite Hev in Hin.
    apply in_app_or in Hin as [Hin|Hin]; [exact (Hbus _ _ _ Hin)|].
    apply in_app_or in Hin as [Hin|Hin].
    - destruct (allow_slash_cmd cmd); [|destruct Hin].
      destruct Hin as [[= <- <- <-]|[]]. auto.
    - destruct (allow_prefix_cmd cmd); [|destruct Hin].
      destruct Hin as [[= <- <- <-]|[]]. auto. }
  split; [exact Hbus1|].
  set (cmd1 := with_loaded true
                 (if allow_slash_cmd cmd
                  then with_list_of_application_command_data (Some l) cmd
                  else cmd)).
  assert (Hc1 : heap w1 !! c = Some cmd1).
  { rewrite Hheap. unfold cmd1.
    destruct (allow_slash_cmd cmd);
      rewrite !list_lookup_alter_eq, Hc; reflexivity. }
  assert (Hext1 : exists ext, fst (extension cmd1 w1) = Ok ext).
  { destruct Hext as [ext He]. exists ext. rewrite <- He.
    transitivity (fst (extension cmd w1)).
    - unfold cmd1. destruct (allow_slash_cmd cmd); reflexivity.
    - apply extension_same_cache. exact Hcache. }
  exists cmd1. split; [exact Hc1|].
  split; [unfold cmd1; destruct (allow_slash_cmd cmd); reflexivity|].
  split.
  - intros Hap. split; [exact Hc1|]. split; [|split; [|exact Hext1]].
    + rewrite Hev, Hap. apply in_or_app. right. apply in_or_app. right.
      left. reflexivity.
    + intros t' Hin. destruct (Hbus1 _ _ _ Hin) as [[-> _]|[_ [=]]].
      reflexivity.
  - intros Has. split; [exact Hc1|]. split; [|split; [|exact Hext1]].
    + rewrite Hev, Has. apply in_or_app. right. apply in_or_app. left.
      left. reflexivity.
    + intros t' Hin. destruct (Hbus1 _ _ _ Hin) as [[_ [=]]|[-> _]].
      reflexivity.
Qed.

Lemma listening_load_other w c cmd t e c' cmd' w1 :
  c' <> c ->
  listening c cmd t e w ->
  heap w !! c' = Some cmd' ->
  load c' w = (Ok tt, w1) ->
  listening c cmd t e w1.
Proof.
  intros Hne (Hc & Hin & Hkind & [ext He]) Hc' Hload.
  destruct (load_ok _ _ _ _ Hc' Hload)
    as (l & reqs & Hev & Hheap & _ & _ & _ & _ & _ & _ & Hcache & _).
  split; [|split; [|split]].
  - rewrite Hheap. rewrite list_lookup_alter_ne by exact Hne.
    destruct (allow_slash_cmd cmd');
      [rewrite list_lookup_alter_ne by exact Hne|]; exact Hc.
  - rewrite Hev. apply in_or_app. left. exact Hin.
  - intros t' Hin'. rewrite Hev in Hin'.
    apply in_app_or in Hin' as [Hin'|Hin']; [exact (Hkind _ Hin')|].
    exfalso. apply in_app_or in Hin' as [Hin'|Hin'].
    + destruct (allow_slash_cmd cmd'); [|destruct Hin'].
      destruct Hin' as [[=]|[]]. congruence.
    + destruct (allow_prefix_cmd cmd'); [|destruct Hin'].
      destruct Hin' as [[=]|[]]. congruence.
  - exists ext. rewrite <- He. apply extension_same_cache. exact Hcache.
Qed.

(** *** An event delivered to a listening command *)

Lemma handler_env_step c cmd al gs w j calls :
  handler_env c cmd al gs w ->
  option_map strip_template j =
    option_map strip_template (goldy_json_allowed_guilds w) ->
  handler_env c cmd al gs
    (set_invocations (invocations w ++ calls)
       (set_goldy_json_allowed_guilds j w)).
Proof.
  intros (Hc & (data & Hd & Ht) & Hgs & Hg & He) Hj.
  split; [exact Hc|]. split; [|split; [exact Hgs|split]].
  - rewrite Hd in Hj. destruct j as [data'|]; [|discriminate].
    simpl in Hj. injection Hj as Hj.
    exists data'. split; [reflexivity|]. rewrite Hj. exact Ht.
  - exact Hg.
  - destruct He as [ext He]. exists ext. rewrite <- He.
    apply extension_same_cache. reflexivity.
Qed.

Lemma world_same_json w j calls :
  goldy_json_allowed_guilds
    (set_invocations (invocations w ++ calls)
       (set_goldy_json_allowed_guilds j w)) = j.
Proof. reflexivity. Qed.

(** The tasks of a list of listeners in which the callbacks of [c] are
    all of kind [t]: each of them ends as the handler's outcome says, and
    the others leave the calls of [c] alone. *)
Lemma run_tasks_own c cmd al gs t d Q platter :
  handler_outcome c cmd al gs t d Q platter ->
  forall ls,
    Forall (fun l => forall t', l = CommandCallback c t' -> t' = t) ls ->
    forall w, handler_env c cmd al gs w ->
      exists j calls,
        snd (run_tasks ls (VDict d) w) =
          set_invocations (invocations w ++ calls)
            (set_goldy_json_allowed_guilds j w) /\
        option_map strip_template j =
          option_map strip_template (goldy_json_allowed_guilds w) /\
        ((Q /\
          length (filter (fun i => call_command i = c) calls) =
            length (filter (fun l => listener_eqb l (CommandCallback c t) = true) ls) /\
          Forall (is_call c platter)
            (filter (fun i => call_command i = c) calls)) \/
         (~ Q /\ filter (fun i => call_command i = c) calls = [])) /\
        (is_Some (dict_get "guild_id" d) ->
         forall r, In (CommandCallback c t, r)
                     (fst (run_tasks ls (VDict d) w)) -> r = Ok tt).
Proof.
  intros Hout ls Hls. induction Hls as [|l ls Hl Hls IH]; intros w Henv.
  - exists (goldy_json_allowed_guilds w), []. simpl. rewrite world_same.
    split; [reflexivity|]. split; [reflexivity|]. split.
    + destruct (Hout w Henv) as (_ & _ & _ & _ & _ & [[HQ _]|[HQ _]] & _).
      * left. split; [exact HQ|]. split; [reflexivity | constructor].
      * right. split; [exact HQ | reflexivity].
    + intros _ r [].
  - simpl.
    (* the first task *)
    assert (H1 : exists r j calls,
               run_listener l (VDict d) w =
                 (r, set_invocations (invocations w ++ calls)
                       (set_goldy_json_allowed_guilds j w)) /\
               option_map strip_template j =
                 option_map strip_template (goldy_json_allowed_guilds w) /\
               ((Q /\
                 length (filter (fun i => call_command i = c) calls) =
                   length (filter (fun l => listener_eqb l (CommandCallback c t) = true) [l]) /\
                 Forall (is_call c platter)
                   (filter (fun i => call_command i = c) calls)) \/
                (~ Q /\ filter (fun i => call_command i = c) calls = [])) /\
               (is_Some (dict_get "guild_id" d) ->
                l = CommandCallback c t -> r = Ok tt)).
    { destruct l as [c' t'|n].
      - destruct (Nat.eq_dec c' c) as [->|Hne].
        + rewrite (Hl t' eq_refl). simpl.
          destruct (Hout w Henv) as (r & j & calls & Hinv & Hj & Hq & Hr).
          exists r, j, calls. split; [exact Hinv|]. split; [exact Hj|].
          split; [|intros Hg _; exact (Hr Hg)].
          destruct Hq as [[HQ (i & Hi & ->)]|[HQ ->]].
          * left. split; [exact HQ|].
            assert (Hic : call_command i = c)
              by (destruct Hi as [ext ->]; reflexivity).
            rewrite filter_cons_True by exact Hic. rewrite filter_nil.
            rewrite filter_cons_True
              by (apply listener_eqb_eq; reflexivity).
            split; [reflexivity|]. repeat constructor. exact Hi.
          * right. split; [exact HQ | reflexivity].
        + simpl.
          destruct (only_calls_invoke c' (VDict d) t' w)
            as (j & calls & Hw & Hf & Hj).
          exists (fst (invoke c' (VDict d) t' w)), j, calls.
          split; [rewrite <- Hw; apply surjective_pairing|].
          split; [exact Hj|].
          assert (Hnone : filter (fun i => call_command i = c) calls = []).
          { clear -Hf Hne. induction Hf as [|i calls Hi Hf IH];
              [reflexivity|].
            rewrite filter_cons_False by congruence. exact IH. }
          rewrite Hnone.
          assert (Hno : filter
                    (fun l => listener_eqb l (CommandCallback c t) = true)
                    [CommandCallback c' t'] = []).
          { rewrite filter_cons_False; [reflexivity|].
            rewrite listener_eqb_eq. congruence. }
          rewrite Hno.
          split; [|intros _ [=]; congruence].
          destruct (Hout w Henv) as (_ & _ & _ & _ & _ & [[HQ _]|[HQ _]] & _).
          * left. split; [exact HQ|]. split; [reflexivity | constructor].
          * right. split; [exact HQ | reflexivity].
      - exists (Ok tt), (goldy_json_allowed_guilds w), []. simpl.
        rewrite world_same. split; [reflexivity|]. split; [reflexivity|].
        split; [|intros _ [=]].
        destruct (Hout w Henv) as (_ & _ & _ & _ & _ & [[HQ _]|[HQ _]] & _).
        * left. split; [exact HQ|]. split; [reflexivity | constructor].
        * right. split; [exact HQ | reflexivity]. }
    destruct H1 as (r & j & calls & Hrun & Hj & Hq & Hr).
    rewrite Hrun.
    pose proof (handler_env_step c cmd al gs w j calls Henv Hj) as Henv1.
    destruct (IH _ Henv1) as (j2 & calls2 & Hw2 & Hj2 & Hq2 & Hr2).
    rewrite world_same_json in Hj2.
    destruct (run_tasks ls (VDict d) _) as [rs w2]. simpl in Hw2. subst w2.
    exists j2, (calls ++ calls2). cbn [fst snd]. world_fields.
    rewrite app_assoc.
    split; [reflexivity|]. split; [congruence|]. split.
    + rewrite filter_app.
      assert (Hsplit :
        filter (fun x => listener_eqb x (CommandCallback c t) = true) (l :: ls)
        = filter (fun x => listener_eqb x (CommandCallback c t) = true) [l] ++
          filter (fun x => listener_eqb x (CommandCallback c t) = true) ls)
        by (apply (filter_app _ [l] ls)).
      rewrite Hsplit. clear Hsplit.
      destruct Hq as [(HQ & Hlen & Hall)|[HQ Hnil]].
      * destruct Hq2 as [(_ & Hlen2 & Hall2)|[HQ2 _]]; [|contradiction].
        left. split; [exact HQ|]. rewrite !length_app, Hlen, Hlen2.
        split; [reflexivity|]. apply Forall_app. auto.
      * destruct Hq2 as [(HQ2 & _)|[_ Hnil2]]; [contradiction|].
        right. split; [exact HQ|]. rewrite Hnil, Hnil2. reflexivity.
    + intros Hg r' [[= Hl' Hr']|Hin].
      * rewrite <- Hr'. apply Hr; [exact Hg | exact Hl'].
      * exact (Hr2 Hg r' Hin).
Qed.

Lemma set_invocations_nil j w :
  set_invocations (invocations w ++ []) (set_goldy_json_allowed_guilds j w)
  = set_goldy_json_allowed_guilds j w.
Proof. destruct w. simpl. rewrite app_nil_r. reflexivity. Qed.

(** The handler of a prefix command, on a message. *)
Lemma prefix_handler_outcome c cmd al gs d :
  message_data d ->
  handler_outcome c cmd al gs PREFIX_CMD d (prefix_match al gs cmd d)
    (prefix_platter c d).
Proof.
  intros Hmsg w (Hc & (data & Hd & Ht) & Hgs & Hg & He). subst gs.
  destruct (dict_get "guild_id" d) as [g|] eqn:Hgid.
  - destruct (invoke_prefix_decision w c cmd d data al g
                Hc Hd Ht Hg Hmsg He Hgid) as [[Hm [ext Hinv]]|[Hn Hinv]].
    + exists (Ok tt), (Some (strip_template data)),
        [{| call_command := c; call_extension := ext;
            call_platter := prefix_platter c d |}].
      split; [exact Hinv|]. split.
      { rewrite Hd. simpl. rewrite strip_template_idem. reflexivity. }
      split; [|reflexivity].
      left. split; [exact Hm|]. eexists. split; [exists ext|]; reflexivity.
    + exists (Ok tt), (Some (strip_template data)), [].
      rewrite set_invocations_nil. split; [exact Hinv|]. split.
      { rewrite Hd. simpl. rewrite strip_template_idem. reflexivity. }
      split; [|reflexivity]. right. split; [exact Hn | reflexivity].
  - exists (Raise (KeyError "guild_id")), (goldy_json_allowed_guilds w), [].
    rewrite world_same.
    split; [apply (invoke_no_guild_id w c cmd d PREFIX_CMD Hc Hgid)|].
    split; [reflexivity|]. split.
    + right. split; [|reflexivity]. intros (s & guild & Hs & _). congruence.
    + intros [g Hsome]. discriminate.
Qed.

(** An event dispatched to a listening command: its callbacks under the
    event all run the handler, the other listeners do not touch its
    calls. *)
Lemma dispatch_listening c cmd t e d al gs wa Q platter w :
  listening c cmd t e w ->
  allowed_guilds w = (Ok al, wa) ->
  guilds w = gs ->
  (forall s, In s (map fst al) -> is_Some (get_guild gs (VStr s))) ->
  handler_outcome c cmd al gs t d Q platter ->
  let n := own_listeners c t e w in
  let rs := fst (dispatch e (VDict d) w) in
  let w' := snd (dispatch e (VDict d) w) in
  1 <= n /\
  (Q -> exists cs,
          calls_of c w' = calls_of c w ++ cs /\ length cs = n /\
          Forall (is_call c platter) cs) /\
  (~ Q -> calls_of c w' = calls_of c w) /\
  (calls_of c w' <> calls_of c w <-> Q) /\
  (forall g r,
     dict_get "guild_id" d = Some g ->
     In (CommandCallback c t, r) rs -> r = Ok tt).
Proof.
  intros (Hc & Hin & Hkind & Hext) Hal Hgs Hg Hout n rs w'.
  assert (Henv : handler_env c cmd al gs w).
  { split; [exact Hc|]. split; [|auto].
    destruct (goldy_json_allowed_guilds w) as [data|] eqn:Hd;
      [|rewrite (allowed_guilds_raises w Hd) in Hal; discriminate].
    destruct (allowed_guilds_run w data Hd) as (al' & Hr & _ & Ht).
    rewrite Hr in Hal. injection Hal as -> _. eauto. }
  assert (Hls : Forall (fun l => forall t', l = CommandCallback c t' -> t' = t)
                  (listeners_of e w)).
  { apply Forall_forall. intros l Hl t' ->. apply Hkind.
    apply list_elem_of_In in Hl. unfold listeners_of in Hl.
    apply in_map_iff in Hl as ([e' l'] & Hl' & Hin').
    simpl in Hl'. subst l'.
    apply list_elem_of_In, list_elem_of_filter in Hin' as [He' Hin'].
    simpl in He'. apply String.eqb_eq in He'. subst e'.
    apply list_elem_of_In. exact Hin'. }
  assert (Hn : 1 <= n).
  { unfold n, own_listeners.
    assert (Hmem : CommandCallback c t ∈
              filter (fun l => listener_eqb l (CommandCallback c t) = true)
                (listeners_of e w)).
    { apply list_elem_of_filter. split; [apply listener_eqb_eq; reflexivity|].
      apply list_elem_of_In. unfold listeners_of.
      apply in_map_iff. exists (e, CommandCallback c t).
      split; [reflexivity|].
      apply list_elem_of_In, list_elem_of_filter.
      split; [simpl; apply String.eqb_refl | apply list_elem_of_In; exact Hin]. }
    destruct (filter _ (listeners_of e w)); [inversion Hmem | simpl; lia]. }
  destruct (run_tasks_own c cmd al gs t d Q platter Hout _ Hls w Henv)
    as (j & calls & Hw & _ & Hq & Hr).
  assert (Hcalls : calls_of c w' =
            calls_of c w ++ filter (fun i => call_command i = c) calls).
  { unfold w', dispatch. rewrite Hw. unfold calls_of. world_fields.
    apply filter_app. }
  split; [exact Hn|].
  destruct Hq as [(HQ & Hlen & Hall)|[HQ Hnil]].
  - split; [intros _; eexists; split; [exact Hcalls|]; auto|].
    split; [intros Hno; contradiction|].
    split; [split; [intros _; exact HQ|]|].
    + intros _ Heq. rewrite Hcalls in Heq.
      apply (f_equal (@length _)) in Heq. rewrite length_app, Hlen in Heq.
      fold (own_listeners c t e w) in Heq. fold n in Heq. lia.
    + intros g r Hgid Hinr. apply Hr; [eauto | exact Hinr].
  - rewrite Hnil, app_nil_r in Hcalls.
    split; [intros HQ'; contradiction|].
    split; [intros _; exact Hcalls|].
    split; [split; [intros Hne; contradiction | intros HQ'; contradiction]|].
    intros g r Hgid Hinr. apply Hr; [eauto | exact Hinr].
Qed.

(** C1: take a command that listens for messages, as every command that
    allows prefix invocation does once it has been loaded
    ([load_listening]) and for as long as it is not unloaded, whatever is
    loaded or delivered in between ([listening_load_other],
    [listening_dispatch]); let the configuration list the allowed guilds
    and the guild registry know each of them.  When a message-create
    event is dispatched, the command's callback is called, with the
    context of that message and once for each subscription of the
    command, if and only if the message's guild id is one of the allowed
    guilds and its text is that guild's prefix followed by the command's
    name; otherwise the callback is not called, and for a message that
    carries a guild id the command's handler ends without an exception. *)
Theorem prefix_dispatch (w : World) (c : nat) (cmd : Command)
  (d : list (string * value)) (al : list (string * string)) (wa : World) :
  listening c cmd PREFIX_CMD "MESSAGE_CREATE" w ->
  allowed_guilds w = (Ok al, wa) ->
  (forall s, In s (map fst al) -> is_Some (get_guild (guilds w) (VStr s))) ->
  message_data d ->
  let n := own_listeners c PREFIX_CMD "MESSAGE_CREATE" w in
  let rs := fst (dispatch "MESSAGE_CREATE" (VDict d) w) in
  let w' := snd (dispatch "MESSAGE_CREATE" (VDict d) w) in
  1 <= n /\
  (prefix_match al (guilds w) cmd d ->
   exists cs,
     calls_of c w' = calls_of c w ++ cs /\ length cs = n /\
     Forall (is_call c (prefix_platter c d)) cs) /\
  (~ prefix_match al (guilds w) cmd d -> calls_of c w' = calls_of c w) /\
  (calls_of c w' <> calls_of c w <-> prefix_match al (guilds w) cmd d) /\
  (forall g r,
     dict_get "guild_id" d = Some g ->
     In (CommandCallback c PREFIX_CMD, r) rs -> r = Ok tt).
Proof.
  intros Hl Hal Hg Hmsg.
  exact (dispatch_listening c cmd PREFIX_CMD "MESSAGE_CREATE" d al (guilds w)
           wa _ _ w Hl Hal eq_refl Hg
           (prefix_handler_outcome c cmd al (guilds w) d Hmsg)).
Qed.

(** * Further properties of the command module *)

(** ** Slash registration *)

Lemma create_slash_loop_accepted cmd gs acc w a :
  application_data w = Some a ->
  accepts_creations w ->
  exists l',
    create_slash_loop cmd gs acc w =
      (Ok (acc ++ l'),
       set_http_requests
         (http_requests w ++ map (creation_of (app_id a) cmd) gs) w) /\
    map fst l' = map fst gs.
Proof.
  intros Ha Hacc. revert acc w Ha Hacc.
  induction gs as [|g gs IH]; intros acc w Ha Hacc; simpl.
  - exists []. rewrite app_nil_r, set_http_requests_same. auto.
  - rewrite run_bind, application_id_run, Ha.
    rewrite run_bind, http_send_run.
    destruct (http_respond w (http_requests w) _) as [d|] eqn:Hr;
      [|exfalso; exact (Hacc _ _ _ _ _ Hr)].
    destruct (IH (acc ++ [(fst g, d)])
                (set_http_requests
                   (http_requests w ++
                      [CreateGuildApplicationCommand (app_id a) (fst g)
                         (name cmd) (description cmd)]) w) Ha Hacc)
      as (l' & Hl & Hm).
    exists ((fst g, d) :: l'). rewrite Hl. world_fields.
    rewrite <- !app_assoc. simpl. rewrite Hm. auto.
Qed.

(** X1: once the core holds its application data and the remote platform
    accepts registrations, [create_slash] completes: it has sent exactly
    one registration request per allowed guild, in their order and with
    the command's name and description, has recorded one handle per guild
    id in that order, and has registered the interaction-create listener
    last of all. *)
Theorem create_slash_registers (w : World) (c : nat) (cmd : Command)
  (a : ApplicationData) :
  heap w !! c = Some cmd ->
  application_data w = Some a ->
  accepts_creations w ->
  exists l,
    create_slash c w =
      (Ok l,
       set_heap
         (alter (with_list_of_application_command_data (Some l)) c (heap w))
         (set_event_handlers
            (event_handlers w ++
               [("INTERACTION_CREATE", CommandCallback c SLASH_CMD)])
            (set_http_requests
               (http_requests w ++
                  map (creation_of (app_id a) cmd)
                    (guilds_allowed_guilds (guilds w))) w))) /\
    map fst l = map fst (guilds_allowed_guilds (guilds w)).
Proof.
  intros Hc Ha Hacc.
  destruct (create_slash_loop_accepted cmd (guilds_allowed_guilds (guilds w))
              [] w a Ha Hacc) as (l & Hl & Hm).
  exists l. split; [|exact Hm].
  unfold create_slash. rewrite run_bind, (get_command_ok _ _ _ Hc).
  rewrite run_bind. unfold gets. rewrite run_bind, Hl. reflexivity.
Qed.

Lemma extension_raises cmd w e :
  fst (extension cmd w) = Raise e -> e = TypeError \/ e = IndexError.
Proof.
  unfold extension. destruct (in_extension cmd); [|discriminate].
  rewrite run_bind. unfold lift, extension_name_of.
  destruct (index (split_on " " (fn_str (func cmd))) 1) as [q|e1] eqn:E1.
  - destruct (index (split_on "." q) 0) as [n|e2] eqn:E2.
    + rewrite run_bind. unfold gets.
      destruct (cache_lookup n (extensions_cache w)); [discriminate|].
      intros [= <-]. auto.
    + unfold index in E2. destruct (_ !! _); [discriminate|].
      injection E2 as <-. intros [= <-]. auto.
  - unfold index in E1. destruct (_ !! _); [discriminate|].
    injection E1 as <-. intros [= <-]. auto.
Qed.

(** The registration loop stops at the first request that is refused. *)
Lemma create_slash_loop_refused cmd gs acc w w1 :
  create_slash_loop cmd gs acc w = (Raise RemoteError, w1) ->
  exists a k g,
    application_data w = Some a /\ gs !! k = Some g /\
    w1 = set_http_requests
           (http_requests w ++
              map (creation_of (app_id a) cmd) (take (S k) gs)) w /\
    http_respond w
      (http_requests w ++ map (creation_of (app_id a) cmd) (take k gs))
      (creation_of (app_id a) cmd g) = None.
Proof.
  revert acc w. induction gs as [|g gs IH]; intros acc w H; simpl in H.
  - discriminate.
  - rewrite run_bind, application_id_run in H.
    destruct (application_data w) as [a|] eqn:Ha; [|discriminate].
    rewrite run_bind, http_send_run in H.
    destruct (http_respond w (http_requests w) _) as [d|] eqn:Hr.
    + apply IH in H as (a' & k & g' & Ha' & Hk & -> & Href).
      change (application_data w = Some a') in Ha'.
      rewrite Ha in Ha'. injection Ha' as <-.
      exists a, (S k), g'. split; [reflexivity|]. split; [exact Hk|].
      world_fields. rewrite <- app_assoc. split; [reflexivity|].
      cbn [http_requests set_http_requests http_respond] in Href.
      rewrite <- app_assoc in Href. exact Href.
    + injection H as <-. exists a, 0, g.
      split; [reflexivity|]. split; [reflexivity|].
      rewrite take_0. simpl. rewrite app_nil_r. split; [reflexivity|].
      exact Hr.
Qed.

(** X2: when [load] ends with the remote platform refusing a request,
    the command allows slash invocation and [load] has done this and
    nothing else: it has sent the registration requests of the command
    for the first allowed guilds, in their order, up to and including the
    one the platform refused.  So no listener is registered, no handle is
    recorded, the command is not marked loaded, and no request takes back
    the registrations accepted before the refusal. *)
Theorem load_remote_refusal (w : World) (c : nat) (cmd : Command)
  (w1 : World) :
  heap w !! c = Some cmd ->
  load c w = (Raise RemoteError, w1) ->
  allow_slash_cmd cmd = true /\
  exists a k g,
    application_data w = Some a /\
    guilds_allowed_guilds (guilds w) !! k = Some g /\
    w1 = set_http_requests
           (http_requests w ++
              map (creation_of (app_id a) cmd)
                (take (S k) (guilds_allowed_guilds (guilds w)))) w /\
    http_respond w
      (http_requests w ++
         map (creation_of (app_id a) cmd)
           (take k (guilds_allowed_guilds (guilds w))))
      (creation_of (app_id a) cmd g) = None.
Proof.
  intros Hc H. unfold load in H.
  rewrite run_bind, (get_command_ok _ _ _ Hc) in H. rewrite run_bind in H.
  assert (Hrest : forall w0 r w2,
            (when (allow_prefix_cmd cmd) (create_normal c) ;;
             ext ← extension cmd;
             match ext with
             | Some e => add_command e c
             | None => ret tt
             end ;;
             update_command c (with_loaded true)) w0 = (r, w2) ->
            r <> Raise RemoteError).
  { intros w0 r w2 Hr. rewrite run_bind in Hr.
    assert (Hk : forall w3,
              (ext ← extension cmd;
               match ext with
               | Some e => add_command e c
               | None => ret tt
               end ;;
               update_command c (with_loaded true)) w3 = (r, w2) ->
              r <> Raise RemoteError).
    { intros w3 Hr3. rewrite run_bind, extension_run in Hr3.
      destruct (fst (extension cmd w3)) as [[e|]|e] eqn:He.
      - simpl in Hr3. injection Hr3 as <- _. discriminate.
      - simpl in Hr3. injection Hr3 as <- _. discriminate.
      - injection Hr3 as <- _.
        destruct (extension_raises _ _ _ He) as [-> | ->]; discriminate. }
    destruct (allow_prefix_cmd cmd); simpl in Hr; eapply Hk; exact Hr. }
  destruct (allow_slash_cmd cmd) eqn:Has; simpl in H.
  - split; [reflexivity|]. rewrite run_bind in H.
    destruct (create_slash c w) as [[l|e] ws] eqn:Hs.
    + change ((ret tt : M unit) ?w) with (Ok tt, w) in H. cbv beta iota in H.
      exfalso. exact (Hrest _ _ _ H eq_refl).
    + injection H as -> <-.
      unfold create_slash in Hs.
      rewrite run_bind, (get_command_ok _ _ _ Hc) in Hs.
      rewrite run_bind in Hs. unfold gets in Hs. rewrite run_bind in Hs.
      destruct (create_slash_loop cmd _ [] w) as [[l|e'] w0] eqn:Hl.
      * simpl in Hs. discriminate.
      * injection Hs as -> <-.
        exact (create_slash_loop_refused _ _ _ _ _ Hl).
  - exfalso. exact (Hrest _ _ _ H eq_refl).
Qed.

(** ** Loading again *)

Lemma load_ok_command w c cmd w1 :
  heap w !! c = Some cmd ->
  load c w = (Ok tt, w1) ->
  exists cmd1,
    heap w1 !! c = Some cmd1 /\
    loaded cmd1 = true /\
    name cmd1 = name cmd /\
    allow_prefix_cmd cmd1 = allow_prefix_cmd cmd /\
    allow_slash_cmd cmd1 = allow_slash_cmd cmd /\
    func cmd1 = func cmd /\
    priv_in_extension cmd1 = priv_in_extension cmd.
Proof.
  intros Hc H.
  destruct (load_ok _ _ _ _ Hc H) as (l & reqs & _ & Hheap & _).
  rewrite Hheap.
  destruct (allow_slash_cmd cmd) eqn:Has;
    rewrite !list_lookup_alter_eq, Hc; simpl; eexists;
    (split; [reflexivity|]); simpl; rewrite ?Has; auto 10.
Qed.

Lemma load_ok_subscriptions w c cmd w1 :
  heap w !! c = Some cmd ->
  load c w = (Ok tt, w1) ->
  subscriptions c w1 =
    subscriptions c w ++
    (if allow_slash_cmd cmd
     then [("INTERACTION_CREATE", CommandCallback c SLASH_CMD)] else []) ++
    (if allow_prefix_cmd cmd
     then [("MESSAGE_CREATE", CommandCallback c PREFIX_CMD)] else []).
Proof.
  intros Hc H.
  destruct (load_ok _ _ _ _ Hc H) as (l & reqs & Hev & _).
  unfold subscriptions. rewrite Hev, !filter_app.
  destruct (allow_slash_cmd cmd), (allow_prefix_cmd cmd);
    rewrite ?subscriptions_own; reflexivity.
Qed.

(** X3: [load] does not look at the loaded flag: a second successful
    [load] without an [unload] in between registers the command's
    listeners a second time. *)
Theorem load_twice_subscribes_twice (w : World) (c : nat) (cmd : Command)
  (w1 w2 : World) :
  heap w !! c = Some cmd ->
  load c w = (Ok tt, w1) ->
  load c w1 = (Ok tt, w2) ->
  let own :=
    (if allow_slash_cmd cmd
     then [("INTERACTION_CREATE", CommandCallback c SLASH_CMD)] else []) ++
    (if allow_prefix_cmd cmd
     then [("MESSAGE_CREATE", CommandCallback c PREFIX_CMD)] else []) in
  subscriptions c w2 = subscriptions c w ++ own ++ own.
Proof.
  intros Hc H1 H2 own.
  destruct (load_ok_command _ _ _ _ Hc H1)
    as (cmd1 & Hc1 & _ & _ & Hap & Has & _).
  rewrite (load_ok_subscriptions _ _ _ _ Hc1 H2).
  rewrite (load_ok_subscriptions _ _ _ _ Hc H1).
  rewrite Hap, Has. rewrite <- app_assoc. reflexivity.
Qed.

(** X4: for an extension-owned command without slash invocation whose
    extension name is not in the extension registry, [load] raises
    [TypeError]; by then the message-create listener is registered (when
    prefix invocation is allowed), and the command is not marked loaded. *)
Theorem load_unresolved_extension (w : World) (c : nat) (cmd : Command)
  (ext_name : string) :
  heap w !! c = Some cmd ->
  allow_slash_cmd cmd = false ->
  in_extension cmd = true ->
  extension_name cmd = Ok (Some ext_name) ->
  cache_lookup ext_name (extensions_cache w) = None ->
  load c w =
    (Raise TypeError,
     if allow_prefix_cmd cmd
     then set_event_handlers
            (event_handlers w ++
               [("MESSAGE_CREATE", CommandCallback c PREFIX_CMD)]) w
     else w).
Proof.
  intros Hc Has Hin Hn Hl.
  assert (He : forall w0, extensions_cache w0 = extensions_cache w ->
                 extension cmd w0 = (Raise TypeError, w0)).
  { intros w0 Hc0. unfold extension. rewrite Hin.
    unfold extension_name in Hn. rewrite Hin in Hn.
    rewrite run_bind. unfold lift.
    destruct (extension_name_of (func cmd)) as [n|]; [|discriminate].
    injection Hn as ->. rewrite run_bind. unfold gets. rewrite Hc0, Hl.
    reflexivity. }
  unfold load. rewrite run_bind, (get_command_ok _ _ _ Hc).
  rewrite run_bind, Has. simpl. rewrite run_bind.
  destruct (allow_prefix_cmd cmd); simpl.
  - rewrite run_bind, He by reflexivity. reflexivity.
  - rewrite run_bind, He by reflexivity. reflexivity.
Qed.

(** ** The extension a command belongs to *)

Lemma split_on_nonempty sep s : split_on sep s <> [].
Proof.
  destruct s as [|c s]; simpl; [discriminate|].
  destruct (Ascii.eqb c sep); [discriminate|].
  destruct (split_on sep s); discriminate.
Qed.

Lemma split_on_app_sep sep a b :
  lacks sep a ->
  split_on sep (a +:+ String sep b) = a :: split_on sep b.
Proof.
  induction a as [|c a IH]; simpl.
  - intros _. rewrite Ascii.eqb_refl. reflexivity.
  - intros [Hc Ha]. apply Ascii.eqb_neq in Hc. rewrite Hc.
    rewrite (IH Ha). reflexivity.
Qed.

Lemma split_on_head sep a s :
  lacks sep a ->
  exists r tl, split_on sep (a +:+ s) = (a +:+ r) :: tl.
Proof.
  induction a as [|c a IH]; simpl.
  - intros _. destruct (split_on sep s) as [|r tl] eqn:E.
    + exfalso. exact (split_on_nonempty _ _ E).
    + exists r, tl. simpl. exact E.
  - intros [Hc Ha]. apply Ascii.eqb_neq in Hc. rewrite Hc.
    destruct (IH Ha) as (r & tl & ->). exists r, tl. reflexivity.
Qed.

Lemma lacks_app sep a b : lacks sep a -> lacks sep b -> lacks sep (a +:+ b).
Proof.
  induction a as [|c a IH]; simpl; [auto|]. intros [Hc Ha] Hb. auto.
Qed.

Lemma string_app_assoc (a b c : string) : (a +:+ b) +:+ c = a +:+ (b +:+ c).
Proof.
  induction a as [|x a IH]; [reflexivity|].
  change (String x ((a +:+ b) +:+ c) = String x (a +:+ (b +:+ c))).
  rewrite IH. reflexivity.
Qed.

(** X5: when [str(func)] reads [head], a space, a class name, a dot and
    anything more, head and class name being free of spaces and the class
    name free of dots, the extension name is that class name. *)
Theorem extension_name_of_qualified (f : Callable) (head cls rest : string) :
  fn_str f = head +:+ String " " (cls +:+ String "." rest) ->
  lacks " " head -> lacks " " cls -> lacks "." cls ->
  extension_name_of f = Ok cls.
Proof.
  intros Hs Hh Hc Hd. unfold extension_name_of. rewrite Hs.
  rewrite (split_on_app_sep " " head _ Hh).
  assert (Hcd : lacks " " (cls +:+ ".")).
  { apply lacks_app; [exact Hc|]. simpl. split; [discriminate | exact I]. }
  destruct (split_on_head " " (cls +:+ ".") rest Hcd) as (r & tl & Hsp).
  rewrite string_app_assoc in Hsp.
  change ("." +:+ rest) with (String "." rest) in Hsp.
  unfold index at 1. change ((head :: ?l) !! 1) with (l !! 0).
  rewrite Hsp. change ((?x :: tl) !! 0) with (Some x). cbv beta iota.
  rewrite string_app_assoc. change ("." +:+ r) with (String "." r).
  rewrite (split_on_app_sep "." cls r Hd). reflexivity.
Qed.

(** ** Slash invocation *)

(** The handler of an interaction that carries a guild id: it calls the
    callback exactly when the guild is an allowed one; nothing else of the
    payload is looked at. *)
Lemma invoke_slash_decision w c cmd d data al g :
  heap w !! c = Some cmd ->
  goldy_json_allowed_guilds w = Some data ->
  tuples_of (dict_keys (strip_template data)) (strip_template data) = Ok al ->
  (forall s, In s (map fst al) -> is_Some (get_guild (guilds w) (VStr s))) ->
  interaction_data d ->
  (exists ext, fst (extension cmd w) = Ok ext) ->
  dict_get "guild_id" d = Some g ->
  let wj := set_goldy_json_allowed_guilds (Some (strip_template data)) w in
  ((exists s, g = VStr s /\ In s (map fst al)) /\
   exists ext,
     invoke c (VDict d) SLASH_CMD w =
       (Ok tt,
        set_invocations
          (invocations w ++
             [{| call_command := c; call_extension := ext;
                 call_platter := slash_platter c d |}]) wj)) \/
  (~ (exists s, g = VStr s /\ In s (map fst al)) /\
   invoke c (VDict d) SLASH_CMD w = (Ok tt, wj)).
Proof.
  intros Hc Hd Ht Hg (m & u & n1 & n2 & Hm & Hu & Hn1 & Hn2) [ext He] Hgid wj.
  pose proof (allowed_guilds_stripped w data al Hd Ht) as Hal.
  fold wj in Hal.
  destruct (invoke c (VDict d) SLASH_CMD w) as [r w'] eqn:Hinv.
  unfold invoke in Hinv. rewrite run_bind, (get_command_ok _ _ _ Hc) in Hinv.
  rewrite run_bind in Hinv. unfold lift in Hinv. cbn [subscript] in Hinv.
  rewrite Hgid, Hm in Hinv.
  rewrite run_bind, Hal in Hinv.
  destruct (in_strs g (map fst al)) eqn:Hin.
  - apply in_strs_true in Hin as (s & -> & Hs).
    destruct (Hg s Hs) as [guild Hguild].
    cbv zeta in Hinv. rewrite run_bind in Hinv.
    rewrite run_bind in Hinv. unfold gets in Hinv.
    change (guilds wj) with (guilds w) in Hinv. rewrite Hguild in Hinv.
    cbn [platter_type PlatterType_value Z.eqb when guild_prefix] in Hinv.
    rewrite run_bind in Hinv.
    change ((ret tt : M unit) wj) with (Ok tt, wj) in Hinv.
    cbv beta iota in Hinv. cbn [Pos.eqb when] in Hinv.
    rewrite run_bind in Hinv.
    change ((ret (prefix guild) : M string) wj)
      with (Ok (prefix guild), wj) in Hinv.
    cbv beta iota in Hinv.
    repeat first
      [ rewrite run_bind in Hinv | progress cbn [subscript] in Hinv
      | rewrite Hu in Hinv | rewrite Hn1 in Hinv | rewrite Hn2 in Hinv ].
    unfold run_callback in Hinv.
    assert (Hext : extension cmd wj = (Ok ext, wj)).
    { rewrite extension_run. f_equal. rewrite <- He.
      apply extension_same_cache. reflexivity. }
    left. split; [eauto|].
    destruct (in_extension cmd).
    + rewrite run_bind, Hext in Hinv. exists ext. rewrite <- Hinv. reflexivity.
    + exists None. rewrite <- Hinv. reflexivity.
  - right. split; [|rewrite <- Hinv; reflexivity].
    intros (s & -> & Hs).
    assert (in_strs (VStr s) (map fst al) = true)
      by (apply in_strs_true; eauto).
    congruence.
Qed.

(** The handler of a slash command, on an interaction. *)
Lemma slash_handler_outcome c cmd al gs d :
  interaction_data d ->
  handler_outcome c cmd al gs SLASH_CMD d
    (exists s, dict_get "guild_id" d = Some (VStr s) /\ In s (map fst al))
    (slash_platter c d).
Proof.
  intros Hmsg w (Hc & (data & Hd & Ht) & Hgs & Hg & He). subst gs.
  destruct (dict_get "guild_id" d) as [g|] eqn:Hgid.
  - destruct (invoke_slash_decision w c cmd d data al g
                Hc Hd Ht Hg Hmsg He Hgid)
      as [[(s & -> & Hs) [ext Hinv]]|[Hn Hinv]].
    + exists (Ok tt), (Some (strip_template data)),
        [{| call_command := c; call_extension := ext;
            call_platter := slash_platter c d |}].
      split; [exact Hinv|]. split.
      { rewrite Hd. simpl. rewrite strip_template_idem. reflexivity. }
      split; [|reflexivity].
      left. split; [eauto|]. eexists. split; [exists ext|]; reflexivity.
    + exists (Ok tt), (Some (strip_template data)), [].
      rewrite set_invocations_nil. split; [exact Hinv|]. split.
      { rewrite Hd. simpl. rewrite strip_template_idem. reflexivity. }
      split; [|reflexivity]. right. split; [|reflexivity].
      intros (s & [= ->] & Hs). apply Hn. eauto.
  - exists (Raise (KeyError "guild_id")), (goldy_json_allowed_guilds w), [].
    rewrite world_same.
    split; [apply (invoke_no_guild_id w c cmd d SLASH_CMD Hc Hgid)|].
    split; [reflexivity|]. split.
    + right. split; [|reflexivity]. intros (s & Hs & _). discriminate.
    + intros [g Hsome]. discriminate.
Qed.

(** X6: take a command that listens for interactions, as every command
    that allows slash invocation does once it has been loaded, in a bot
    whose configuration lists the allowed guilds and whose guild registry
    knows each of them.  When an interaction-create event is dispatched
    whose payload names the invoking member (user name and
    discriminator), the command's callback is called, with the context of
    that interaction and once for each subscription of the command, if
    and only if the interaction's guild id is one of the allowed guilds:
    which command the interaction is meant for plays no part. *)
Theorem slash_dispatch (w : World) (c : nat) (cmd : Command)
  (d : list (string * value)) (al : list (string * string)) (wa : World) :
  listening c cmd SLASH_CMD "INTERACTION_CREATE" w ->
  allowed_guilds w = (Ok al, wa) ->
  (forall s, In s (map fst al) -> is_Some (get_guild (guilds w) (VStr s))) ->
  interaction_data d ->
  let allowed :=
    exists s, dict_get "guild_id" d = Some (VStr s) /\ In s (map fst al) in
  let n := own_listeners c SLASH_CMD "INTERACTION_CREATE" w in
  let w' := snd (dispatch "INTERACTION_CREATE" (VDict d) w) in
  1 <= n /\
  (allowed ->
   exists cs,
     calls_of c w' = calls_of c w ++ cs /\ length cs = n /\
     Forall (is_call c (slash_platter c d)) cs) /\
  (~ allowed -> calls_of c w' = calls_of c w) /\
  (calls_of c w' <> calls_of c w <-> allowed).
Proof.
  intros Hl Hal Hg Hmsg allowed n w'.
  destruct (dispatch_listening c cmd SLASH_CMD "INTERACTION_CREATE" d al
              (guilds w) wa _ _ w Hl Hal eq_refl Hg
              (slash_handler_outcome c cmd al (guilds w) d Hmsg))
    as (H1 & H2 & H3 & H4 & _).
  auto.
Qed.

(** ** What a dispatch leaves alone *)

Lemma run_tasks_frame ls d w :
  exists j calls,
    snd (run_tasks ls d w) =
      set_invocations (invocations w ++ calls)
        (set_goldy_json_allowed_guilds j w) /\
    Forall (fun i => exists t, In (CommandCallback (call_command i) t) ls)
      calls /\
    option_map strip_template j =
      option_map strip_template (goldy_json_allowed_guilds w).
Proof.
  revert w. induction ls as [|l ls IH]; intros w; simpl.
  - exists (goldy_json_allowed_guilds w), []. rewrite world_same. auto.
  - assert (H1 : exists j calls,
               snd (run_listener l d w) =
                 set_invocations (invocations w ++ calls)
                   (set_goldy_json_allowed_guilds j w) /\
               Forall (fun i => exists t,
                         In (CommandCallback (call_command i) t) (l :: ls))
                 calls /\
               option_map strip_template j =
                 option_map strip_template (goldy_json_allowed_guilds w)).
    { destruct l as [c' t|n]; simpl.
      - destruct (only_calls_invoke c' d t w) as (j & calls & Hw & Hf & Hj).
        exists j, calls. split; [exact Hw|]. split; [|exact Hj].
        eapply Forall_impl; [exact Hf|]. simpl. intros i ->.
        exists t. left. reflexivity.
      - exists (goldy_json_allowed_guilds w), []. rewrite world_same. auto. }
    destruct H1 as (j & calls & Hw & Hf & Hj).
    destruct (run_listener l d w) as [r w1]. simpl in Hw. subst w1.
    destruct (IH (set_invocations (invocations w ++ calls)
                    (set_goldy_json_allowed_guilds j w)))
      as (j2 & calls2 & Hw2 & Hf2 & Hj2).
    cbn [goldy_json_allowed_guilds set_invocations
           set_goldy_json_allowed_guilds] in Hj2.
    destruct (run_tasks ls d _) as [rs w2]. simpl in Hw2. subst w2.
    exists j2, (calls ++ calls2). simpl. rewrite app_assoc.
    split; [reflexivity|]. split; [|congruence].
    apply Forall_app. split; [exact Hf|].
    eapply Forall_impl; [exact Hf2|]. simpl. intros i [t Hi].
    exists t. right. exact Hi.
Qed.

(** *** The configuration across a dispatch *)

Lemma config_step_pure {A} (m : M A) :
  (forall w, snd (m w) = w) -> config_step m.
Proof.
  intros H w. exists (goldy_json_allowed_guilds w), [].
  rewrite H, world_same. auto.
Qed.

Lemma config_step_bind {A B} (m : M A) (k : A -> M B) :
  config_step m -> (forall a, config_step (k a)) -> config_step (m ≫= k).
Proof.
  intros Hm Hk w. rewrite run_bind.
  destruct (Hm w) as (j & calls & Hw & Hj).
  destruct (m w) as [[a|e] w1]; simpl in Hw; subst w1.
  - destruct (Hk a (set_invocations (invocations w ++ calls)
                      (set_goldy_json_allowed_guilds j w)))
      as (j2 & calls2 & Hw2 & Hj2).
    cbn [goldy_json_allowed_guilds set_invocations
           set_goldy_json_allowed_guilds] in Hj2.
    exists j2, (calls ++ calls2). rewrite Hw2. world_fields.
    rewrite app_assoc. split; [reflexivity|].
    destruct Hj as [-> | ->]; destruct Hj2 as [-> | ->]; auto.
    right. destruct (goldy_json_allowed_guilds w); simpl;
      [rewrite strip_template_idem|]; reflexivity.
  - exists j, calls. auto.
Qed.

Lemma config_step_call_func c ext platter :
  config_step (call_func c ext platter).
Proof.
  intros w. exists (goldy_json_allowed_guilds w),
    [{| call_command := c; call_extension := ext; call_platter := platter |}].
  split; [destruct w; reflexivity | auto].
Qed.

Lemma config_step_run_callback c cmd platter :
  config_step (run_callback c cmd platter).
Proof.
  unfold run_callback. destruct (in_extension cmd).
  - apply config_step_bind;
      [apply config_step_pure; apply extension_frame|].
    intros ext. apply config_step_call_func.
  - apply config_step_call_func.
Qed.

Lemma config_step_allowed_guilds : config_step allowed_guilds.
Proof.
  intros w. destruct (goldy_json_allowed_guilds w) as [data|] eqn:Hd.
  - destruct (allowed_guilds_run w data Hd) as (al & Hr & _).
    rewrite Hr. exists (Some (strip_template data)), [].
    split; [destruct w; simpl; rewrite app_nil_r; reflexivity|].
    right. reflexivity.
  - rewrite (allowed_guilds_raises w Hd).
    exists None, []. rewrite <- Hd, world_same. auto.
Qed.

Ltac config_step_tac :=
  first
    [ apply config_step_allowed_guilds
    | apply config_step_run_callback
    | apply config_step_bind; [|intros ?]
    | match goal with
      | |- config_step (if ?b then _ else _) => destruct b
      | |- config_step (when ?b _) => destruct b; simpl
      end
    | apply config_step_pure; intros ?;
      first [reflexivity
            | unfold get_command; destruct (heap _ !! _); reflexivity
            | match goal with
              | |- snd (guild_prefix ?g _) = _ => destruct g; reflexivity
              end ] ].




(** A delivery that reaches the guard deletes the template entry, call
    or no call. *)
Lemma invoke_strips_template w c cmd d t g :
  heap w !! c = Some cmd ->
  dict_get "guild_id" d = Some g ->
  goldy_json_allowed_guilds (snd (invoke c (VDict d) t w)) =
    option_map strip_template (goldy_json_allowed_guilds w).
Proof.
  intros Hc Hg.
  assert (Hrest : forall (k : list (string * string) -> M unit),
            (forall al, forall w0, goldy_json_allowed_guilds (snd (k al w0)) =
                                   goldy_json_allowed_guilds w0 \/
                                   goldy_json_allowed_guilds (snd (k al w0)) =
                                   option_map strip_template
                                     (goldy_json_allowed_guilds w0)) ->
            goldy_json_allowed_guilds (snd ((allowed_guilds ≫= k) w)) =
              option_map strip_template (goldy_json_allowed_guilds w)).
  { intros k Hk. rewrite run_bind.
    destruct (goldy_json_allowed_guilds w) as [data|] eqn:Hd.
    - destruct (allowed_guilds_run w data Hd) as (al & Hr & _). rewrite Hr.
      destruct (Hk al (set_goldy_json_allowed_guilds
                         (Some (strip_template data)) w)) as [H|H];
        rewrite H; simpl; [|rewrite strip_template_idem]; reflexivity.
    - rewrite (allowed_guilds_raises w Hd). simpl. exact Hd. }
  unfold invoke. rewrite run_bind, (get_command_ok _ _ _ Hc).
  rewrite run_bind. unfold lift at 1. cbn [subscript]. rewrite Hg.
  apply Hrest. intros al w0.
  match goal with
  | |- context [snd (?m w0)] =>
      assert (Hm : config_step m)
  end.
  { cbv zeta. repeat config_step_tac. }
  destruct (Hm w0) as (j & calls & Hw & Hj). rewrite Hw. exact Hj.
Qed.

Lemma listening_dispatch w c cmd t e e' d :
  listening c cmd t e w ->
  listening c cmd t e (snd (dispatch e' d w)).
Proof.
  intros (Hc & Hin & Hkind & [ext He]). unfold dispatch.
  destruct (run_tasks_frame (listeners_of e' w) d w) as (j & calls & Hw & _).
  rewrite Hw. split; [exact Hc|]. split; [exact Hin|].
  split; [exact Hkind|]. exists ext. rewrite <- He.
  apply extension_same_cache. reflexivity.
Qed.

(** ** Unloading *)

Lemma unload_ok_heap w c cmd w1 :
  heap w !! c = Some cmd ->
  unload c w = (Ok tt, w1) ->
  heap w1 = alter (with_loaded false) c (heap w).
Proof.
  intros Hc H.
  assert (Hprefix : forall w0, heap w0 = heap w ->
            (when (allow_prefix_cmd cmd) (remove_normal c) ;;
             update_command c (with_loaded false)) w0 = (Ok tt, w1) ->
            heap w1 = alter (with_loaded false) c (heap w)).
  { intros w0 Hh Hr. rewrite run_bind in Hr.
    destruct (allow_prefix_cmd cmd); simpl in Hr.
    - destruct (remove_listener_cases (CommandCallback c PREFIX_CMD)
                  "MESSAGE_CREATE" w0) as [[hs Hl]|Hl];
        unfold remove_normal in Hr; rewrite Hl in Hr; [|discriminate].
      injection Hr as <-. simpl. rewrite Hh. reflexivity.
    - injection Hr as <-. simpl. rewrite Hh. reflexivity. }
  unfold unload in H. rewrite run_bind, (get_command_ok _ _ _ Hc) in H.
  rewrite run_bind in H.
  destruct (allow_slash_cmd cmd); simpl in H.
  - unfold remove_slash in H.
    rewrite run_bind, (get_command_ok _ _ _ Hc) in H.
    destruct (list_of_application_command_data cmd) as [l|];
      [|discriminate].
    rewrite run_bind in H.
    destruct (remove_slash_loop_frame l w) as [reqs Hr].
    destruct (for_each l _ w) as [[[]|e] w0] eqn:Hf; simpl in Hr; subst w0;
      [|discriminate].
    destruct (remove_listener_cases (CommandCallback c SLASH_CMD)
                "INTERACTION_CREATE"
                (set_http_requests (http_requests w ++ reqs) w))
      as [[hs Hl]|Hl]; rewrite Hl in H; [|discriminate].
    eapply Hprefix; [|exact H]. reflexivity.
  - eapply Hprefix; [|exact H]. reflexivity.
Qed.

(** X8: a completed [unload] clears the loaded flag of the command and
    nothing else in the object store: the recorded slash handles stay as
    they were, and every other command is untouched. *)
Theorem unload_keeps_handles (w : World) (c : nat) (cmd : Command)
  (w1 : World) :
  heap w !! c = Some cmd ->
  unload c w = (Ok tt, w1) ->
  exists cmd1,
    heap w1 !! c = Some cmd1 /\
    loaded cmd1 = false /\
    list_of_application_command_data cmd1 =
      list_of_application_command_data cmd /\
    forall c', c' <> c -> heap w1 !! c' = heap w !! c'.
Proof.
  intros Hc H. rewrite (unload_ok_heap _ _ _ _ Hc H).
  exists (with_loaded false cmd).
  rewrite list_lookup_alter_eq, Hc. repeat split.
  intros c' Hne. apply list_lookup_alter_ne. congruence.
Qed.

(** [unload] completes on a command whose listeners are the last ones
    registered and whose handles the remote platform lets go. *)
Lemma unload_succeeds w1 c cmd1 hs l a :
  heap w1 !! c = Some cmd1 ->
  accepts_deletions w1 ->
  (allow_slash_cmd cmd1 = true ->
   list_of_application_command_data cmd1 = Some l /\
   (l <> [] -> application_data w1 = Some a)) ->
  event_handlers w1 =
    hs ++
    (if allow_slash_cmd cmd1
     then [("INTERACTION_CREATE", CommandCallback c SLASH_CMD)] else []) ++
    (if allow_prefix_cmd cmd1
     then [("MESSAGE_CREATE", CommandCallback c PREFIX_CMD)] else []) ->
  ~ In ("INTERACTION_CREATE", CommandCallback c SLASH_CMD) hs ->
  ~ In ("MESSAGE_CREATE", CommandCallback c PREFIX_CMD) hs ->
  exists w2,
    unload c w1 = (Ok tt, w2) /\
    event_handlers w2 = hs /\
    commands_cache w2 = commands_cache w1.
Proof.
  intros Hc1 Hacc Hl Hev HnI HnM.
  assert (Hprefix : forall w0,
            event_handlers w0 =
              hs ++ (if allow_prefix_cmd cmd1
                     then [("MESSAGE_CREATE", CommandCallback c PREFIX_CMD)]
                     else []) ->
            commands_cache w0 = commands_cache w1 ->
            exists w2,
              (when (allow_prefix_cmd cmd1) (remove_normal c) ;;
               update_command c (with_loaded false)) w0 = (Ok tt, w2) /\
              event_handlers w2 = hs /\
              commands_cache w2 = commands_cache w1).
  { intros w0 He Hcc. rewrite run_bind.
    destruct (allow_prefix_cmd cmd1); simpl.
    - unfold remove_normal, remove_listener. rewrite run_bind. unfold gets.
      rewrite He, (list_remove_app _ _ _ _ handler_eqb_eq HnM). simpl.
      eexists. split; [reflexivity|]. simpl. rewrite app_nil_r. auto.
    - eexists. split; [reflexivity|]. simpl.
      rewrite He, app_nil_r. auto. }
  unfold unload. rewrite run_bind, (get_command_ok _ _ _ Hc1).
  rewrite run_bind.
  destruct (allow_slash_cmd cmd1) eqn:Has; simpl.
  - destruct (Hl eq_refl) as [Hlist Ha].
    unfold remove_slash. rewrite run_bind, (get_command_ok _ _ _ Hc1), Hlist.
    rewrite run_bind, (remove_slash_loop_ok w1 a l Hacc Ha).
    unfold remove_listener. rewrite run_bind. unfold gets. world_fields.
    rewrite Hev. cbn [app].
    rewrite (list_remove_app _ _ _ _ handler_eqb_eq HnI). simpl.
    apply Hprefix; reflexivity.
  - apply Hprefix; [exact Hev | reflexivity].
Qed.

(** X9: in a bot whose registry and event bus mention existing objects
    only and whose remote platform accepts deletions, constructing a
    command, loading it and deleting it brings the registry and the event
    bus back to what they were. *)
Theorem init_load_delete (f : Callable)
  (name_arg description_arg : option string) (roles : option (list string))
  (allow_prefix allow_slash : bool) (parent : option nat)
  (w : World) (c : nat) (w1 w2 : World) :
  refers_below (length (heap w)) w ->
  accepts_deletions w ->
  Command_init f name_arg description_arg roles allow_prefix allow_slash
    parent w = (Ok c, w1) ->
  load c w1 = (Ok tt, w2) ->
  exists w3,
    delete c w2 = (Ok tt, w3) /\
    commands_cache w3 = commands_cache w /\
    event_handlers w3 = event_handlers w.
Proof.
  intros [Hreg Hbus] Hacc Hinit Hload.
  destruct (init_fields f name_arg description_arg roles allow_prefix
              allow_slash parent) as [cmd|e] eqn:Hi.
  2:{ unfold Command_init in Hinit. rewrite run_bind in Hinit.
      unfold lift in Hinit. rewrite Hi in Hinit. discriminate. }
  rewrite (Command_init_run _ _ _ _ _ _ _ _ w Hi) in Hinit.
  injection Hinit as <- <-.
  set (c := length (heap w)) in *.
  set (w1 := set_commands_cache (commands_cache w ++ [(name cmd, c)])
               (set_heap (heap w ++ [cmd]) w)) in *.
  assert (Hc : heap w1 !! c = Some cmd).
  { unfold w1, c. world_fields.
    rewrite lookup_app_r, Nat.sub_diag by lia. reflexivity. }
  destruct (load_ok _ _ _ _ Hc Hload)
    as (l & reqs & Hev & Hheap & _ & _ & Happ & Hresp & Happd & Hcc & _).
  set (cmd1 := with_loaded true
                 (if allow_slash_cmd cmd
                  then with_list_of_application_command_data (Some l) cmd
                  else cmd)).
  assert (Hc1 : heap w2 !! c = Some cmd1).
  { rewrite Hheap. unfold cmd1.
    destruct (allow_slash_cmd cmd);
      rewrite !list_lookup_alter_eq, Hc; reflexivity. }
  assert (Hflags : allow_slash_cmd cmd1 = allow_slash_cmd cmd /\
                   allow_prefix_cmd cmd1 = allow_prefix_cmd cmd /\
                   name cmd1 = name cmd)
    by (unfold cmd1; destruct (allow_slash_cmd cmd) eqn:E; simpl;
        rewrite ?E; auto).
  destruct Hflags as (Hfs & Hfp & Hname).
  set (a := match application_data w with
            | Some a => a | None => {| app_id := "" |} end).
  destruct (unload_succeeds w2 c cmd1 (event_handlers w) l a) as (w3 & Hu & He3 & Hc3).
  - exact Hc1.
  - unfold accepts_deletions. rewrite Hresp. exact Hacc.
  - intros Has. rewrite Hfs in Has. split.
    + unfold cmd1. rewrite Has. reflexivity.
    + intros Hne. rewrite Happd. destruct (Happ Has Hne) as [a' Ha'].
      change (application_data w1) with (application_data w) in Ha'.
      change (application_data w1) with (application_data w).
      unfold a. rewrite Ha'. reflexivity.
  - rewrite Hfs, Hfp. exact Hev.
  - intros Hin. apply Hbus in Hin. unfold c in Hin. lia.
  - intros Hin. apply Hbus in Hin. unfold c in Hin. lia.
  - rewrite (delete_run w2 c cmd1 Hc1), Hu, Hname, Hcc.
    change (commands_cache w1) with (commands_cache w ++ [(name cmd, c)]).
    rewrite (list_remove_app _ _ _ _ entry_eqb_eq).
    + eexists. split; [reflexivity|]. world_fields.
      rewrite app_nil_r. auto.
    + intros Hin. apply Hreg in Hin. unfold c in Hin. lia.
Qed.

(** ** Construction and the arity check, at the edges *)

(** X10: on a callback whose code object has no variable names,
    [__init__] raises [IndexError] before anything is registered. *)
Theorem Command_init_without_variables (f : Callable)
  (name_arg description_arg : option string) (roles : option (list string))
  (allow_prefix allow_slash : bool) (parent : option nat) (w : World) :
  co_varnames f = [] ->
  Command_init f name_arg description_arg roles allow_prefix allow_slash
    parent w = (Raise IndexError, w).
Proof.
  intros Hv. unfold Command_init. rewrite run_bind. unfold lift.
  rewrite (init_fields_raises _ _ _ _ _ _ _ Hv). reflexivity.
Qed.

(** X11: for a command whose callback declares the context parameter,
    [any_args_missing] answers true exactly when the number of supplied
    arguments equals the number of declared parameters (self-reference and
    context object not counted) plus the number of further variable names
    of the code object, local variables included. *)
Theorem any_args_missing_counts_variables (f : Callable)
  (name_arg description_arg : option string) (roles : option (list string))
  (allow_prefix allow_slash : bool) (parent : option nat) (cmd : Command)
  (args : list value) :
  init_fields f name_arg description_arg roles allow_prefix allow_slash parent
    = Ok cmd ->
  (0 <= spec_declared_arity cmd)%Z ->
  any_args_missing cmd args = true <->
  Z.of_nat (length args) =
    (spec_declared_arity cmd + Z.of_nat (length (other_varnames f)))%Z.
Proof.
  intros Hi Ha. rewrite any_args_missing_true.
  unfold init_fields in Hi.
  destruct (co_varnames f) as [|p ps] eqn:Hv; simpl in Hi; [discriminate|].
  injection Hi as <-.
  unfold spec_declared_arity, in_extension, co_argcount in *. simpl in *.
  unfold co_varnames in Hv.
  destruct (declared_params f) as [|q qs] eqn:Hd; simpl in *.
  - destruct (String.eqb p "self"); lia.
  - injection Hv as -> <-.
    destruct (String.eqb p "self"); simpl in *.
    + destruct qs as [|q' qs]; simpl in *; [lia|].
      rewrite drop_0, length_app. lia.
    + rewrite drop_0, length_app. lia.
Qed.

(** ** Reading the allowed guilds again *)

(** X12: reading the allowed guilds a second time gives the same result
    as the first time and changes nothing more. *)
Theorem allowed_guilds_again (w : World) :
  allowed_guilds (snd (allowed_guilds w)) =
  (fst (allowed_guilds w), snd (allowed_guilds w)).
Proof.
  destruct (goldy_json_allowed_guilds w) as [data|] eqn:Hd.
  - destruct (allowed_guilds_run w data Hd) as (al & Hr & _ & Ht).
    rewrite Hr. cbn [fst snd].
    rewrite (allowed_guilds_stripped _ (strip_template data) al);
      [|reflexivity|rewrite strip_template_idem; exact Ht].
    rewrite strip_template_idem. reflexivity.
  - rewrite (allowed_guilds_raises w Hd). cbn [fst snd].
    apply allowed_guilds_raises. exact Hd.
Qed.

(** ** The console's reload command *)

Lemma cache_lookup_first {A} n (l : list (string * A)) :
  match cache_lookup n l with
  | Some x =>
      exists l1 l2, l = l1 ++ x :: l2 /\ fst x = n /\ ~ In n (map fst l1)
  | None => ~ In n (map fst l)
  end.
Proof.
  induction l as [|[n' x] l IH]; simpl; [tauto|].
  destruct (String.eqb n' n) eqn:E.
  - apply String.eqb_eq in E. subst n'. exists [], l. simpl. auto.
  - apply String.eqb_neq in E.
    destruct (cache_lookup n l) as [y|].
    + destruct IH as (l1 & l2 & -> & Hy & Hn).
      exists ((n', x) :: l1), l2. simpl. repeat split; auto.
      intros [H|H]; auto.
    + intros [H|H]; auto.
Qed.

(** X13: [do_reload] hands [None] to the extension reloader exactly when
    the given name is empty or no extension is registered under it;
    otherwise it hands over the first extension registered under that
    name. *)
Theorem do_reload_argument (extension_name : string) (w : World) :
  (do_reload extension_name w = None <->
   extension_name = "" \/ ~ In extension_name (map fst (extensions_cache w))) /\
  (forall e,
     do_reload extension_name w = Some e ->
     exists l1 l2,
       extensions_cache w = l1 ++ (extension_name, e) :: l2 /\
       ~ In extension_name (map fst l1)).
Proof.
  unfold do_reload.
  destruct (String.eqb extension_name "") eqn:E; simpl.
  - apply String.eqb_eq in E. split; [tauto | discriminate].
  - apply String.eqb_neq in E.
    pose proof (cache_lookup_first extension_name (extensions_cache w)) as H.
    destruct (cache_lookup extension_name (extensions_cache w)) as [[n x]|].
    + destruct H as (l1 & l2 & Hl & Hn & Hnot). simpl in Hn. subst n.
      split.
      * split; [discriminate|]. intros [H|H]; [contradiction|].
        exfalso. apply H. rewrite Hl, map_app, in_app_iff. right. left.
        reflexivity.
      * intros e [= <-]. eauto.
    + split; [tauto | discriminate].
Qed.

(** * The model at work *)

Import Sample.

Example split_on_space :
  split_on " " "<function Fun.ping at 0x7f>" =
  ["<function"; "Fun.ping"; "at"; "0x7f>"].
Proof. reflexivity. Qed.

Example split_on_dot : split_on "." "Fun.ping" = ["Fun"; "ping"].
Proof. reflexivity. Qed.

Example extension_name_of_method :
  extension_name_of fun_ping_func = Ok "Fun".
Proof. reflexivity. Qed.

Example init_ping :
  init_fields ping_func None None None true true None = Ok ping_cmd.
Proof. reflexivity. Qed.

Example ping_is_registered : commands_cache with_ping = [("ping", 0)].
Proof. reflexivity. Qed.

Example ping_dispatch_extra :
  calls_of 0 (snd (dispatch "MESSAGE_CREATE"
                     (VDict (message (Some "123") "!ping extra"))
                     with_ping_loaded)) = [].
Proof. vm_compute. reflexivity. Qed.

Example ping_dispatch_direct_message :
  fst (dispatch "MESSAGE_CREATE" (VDict (message None "!ping"))
         with_ping_loaded)
  = [(CommandCallback 0 PREFIX_CMD, Raise (KeyError "guild_id"))].
Proof. vm_compute. reflexivity. Qed.

(** ** Instances of the theorems *)

(** [Command(goldy, nothing)] is not constructed, and [Command(goldy,
    odd)] is extension-owned although [odd] declares no parameter: its
    first variable name, a local variable, is [self]. *)
Lemma Command_init_without_parameter :
  declared_params nothing_func = [] /\
  Command_init nothing_func None None None true true None boot =
    (Raise IndexError, boot) /\
  head (declared_params odd_func) = None /\
  exists cmd,
    Command_init odd_func None None None true true None boot =
      (Ok 0, set_commands_cache [("odd", 0)] (set_heap [cmd] boot)) /\
    in_extension cmd = true /\
    priv_params_amount cmd = (-1)%Z.
Proof.
  split; [reflexivity|]. split; [reflexivity|]. split; [reflexivity|].
  eexists. split; [reflexivity|]. split; reflexivity.
Defined.

(** [Command(goldy, ping)] in the fresh bot. *)
Lemma Command_init_spec_witness :
  declared_params ping_func <> [] /\
  exists cmd w',
    Command_init ping_func None None None true true None boot = (Ok 0, w') /\
    loaded cmd = false /\ name cmd = "ping" /\
    commands_cache w' = [("ping", 0)].
Proof.
  split; [discriminate|].
  destruct (Command_init_spec ping_func None None None true true None boot)
    as (cmd & w' & H1 & _ & _ & H4 & H5 & _ & _ & _ & H9); [discriminate|].
  exists cmd, w'. split; [exact H1|]. split; [exact H4|].
  split; [exact H5|]. rewrite H9, H5. reflexivity.
Defined.

(** [ping(platter)] called with no argument: the counts agree, and the
    check answers true, not false. *)
Lemma any_args_missing_polarity :
  init_fields ping_func None None None true true None = Ok ping_cmd /\
  any_args_missing ping_cmd [] = true /\
  Z.of_nat (length (@nil value)) = spec_declared_arity ping_cmd /\
  ~ (any_args_missing ping_cmd [] = false <->
     Z.of_nat (length (@nil value)) = spec_declared_arity ping_cmd).
Proof.
  split; [reflexivity|]. split; [reflexivity|]. split; [reflexivity|].
  intros [_ H]. specialize (H eq_refl). discriminate.
Defined.

Lemma any_args_missing_arity_witness :
  any_args_missing ping_cmd [VStr "six"] = true <->
  Z.of_nat (length [VStr "six"]) = spec_declared_arity ping_cmd.
Proof.
  apply (any_args_missing_arity ping_func None None None true true None).
  - reflexivity.
  - reflexivity.
  - vm_compute. discriminate.
Defined.



(** A prefix-only command loaded a second time: the load completes and
    the command has two subscriptions. *)
Lemma load_prefix_only_again :
  (exists cmd,
     heap (after (load 0) with_prefix_ping) !! 0 = Some cmd /\
     allow_prefix_cmd cmd = true /\ allow_slash_cmd cmd = false) /\
  fst (load 0 (after (load 0) with_prefix_ping)) = Ok tt /\
  subscriptions 0 (after (load 0) (after (load 0) with_prefix_ping)) =
    [("MESSAGE_CREATE", CommandCallback 0 PREFIX_CMD);
     ("MESSAGE_CREATE", CommandCallback 0 PREFIX_CMD)] /\
  http_requests (after (load 0) (after (load 0) with_prefix_ping)) = [].
Proof.
  split; [eexists; split; [reflexivity|]; split; reflexivity|].
  repeat split; vm_compute; reflexivity.
Defined.

Lemma load_prefix_only_witness :
  subscriptions 0 with_prefix_ping = [] /\
  exists w1,
    load 0 with_prefix_ping = (Ok tt, w1) /\
    subscriptions 0 w1 = [("MESSAGE_CREATE", CommandCallback 0 PREFIX_CMD)] /\
    http_requests w1 = [].
Proof.
  split; [reflexivity|].
  apply (load_prefix_only with_prefix_ping 0
           (with_list_of_application_command_data None
              {| func := ping_func; name := "ping";
                 description := default_description; required_roles := None;
                 allow_prefix_cmd := true; allow_slash_cmd := false;
                 parent_cmd := None; params := ["platter"];
                 priv_params_amount := 1; priv_in_extension := false;
                 list_of_application_command_data := None;
                 priv_loaded := false |}) None);
    reflexivity.
Defined.

(** Two commands named [ping]: the first deleted, the name still finds
    the second. *)
Lemma registry_keeps_namesake :
  heap with_two_pings !! 0 =
    Some (with_loaded true
            (with_list_of_application_command_data
               (Some [("123", {| acd_id := "9000" |})]) ping_cmd)) /\
  In ("ping", 0) (commands_cache with_two_pings) /\
  fst (delete 0 with_two_pings) = Ok tt /\
  cache_lookup "ping" (commands_cache (snd (delete 0 with_two_pings)))
    = Some ("ping", 1).
Proof.
  split; [reflexivity|]. split; [left; reflexivity|].
  split; vm_compute; reflexivity.
Defined.

Lemma delete_lookup_witness :
  delete 0 with_ping_loaded = (Ok tt, after (delete 0) with_ping_loaded) /\
  cache_lookup "ping" (commands_cache (after (delete 0) with_ping_loaded))
    = None.
Proof.
  split; [reflexivity|].
  apply (delete_lookup with_ping_loaded 0
           (with_loaded true
              (with_list_of_application_command_data
                 (Some [("123", {| acd_id := "9000" |})]) ping_cmd))
           (after (delete 0) with_ping_loaded));
    reflexivity.
Defined.

(** A command deleted, loaded again and deleted again: its pair is no
    longer in the registry, and the second [delete] raises. *)
Lemma delete_twice_raises :
  ~ In ("ping", 0) (commands_cache with_ping_reloaded) /\
  fst (unload 0 with_ping_reloaded) = Ok tt /\
  fst (delete 0 with_ping_reloaded) = Raise ValueError.
Proof.
  split; [intros []|]. split; vm_compute; reflexivity.
Defined.

Lemma delete_spec_witness :
  unload 0 with_ping_reloaded = (Ok tt, after (unload 0) with_ping_reloaded) /\
  delete 0 with_ping_reloaded =
    (Raise ValueError, after (unload 0) with_ping_reloaded).
Proof.
  split; [reflexivity|].
  apply (delete_spec with_ping_reloaded 0
           (with_loaded true
              (with_list_of_application_command_data
                 (Some [("123", {| acd_id := "9000" |})])
                 (with_loaded false
                    (with_loaded true
                      (with_list_of_application_command_data
                         (Some [("123", {| acd_id := "9000" |})])
                         ping_cmd)))))).
  - reflexivity.
  - reflexivity.
  - intros [].
Defined.

(** A configuration whose allowed-guild key is there and holds [null]:
    the accessor raises the configuration error. *)
Lemma allowed_guilds_null_raises :
  GoldyConfig.lookup ["goldy"] json_null =
    Some (VDict [("allowed_guilds", VNone)]) /\
  GoldyConfig.lookup ["goldy"; "allowed_guilds"] json_null = Some VNone /\
  GoldyConfig.allowed_guilds json_null = (Raise GoldyBotError, json_null).
Proof. repeat split; reflexivity. Defined.

(** The configuration as the setup leaves it, with one guild added. *)
Lemma allowed_guilds_of_config_witness :
  fst (GoldyConfig.allowed_guilds json_guilds) =
    Ok [(VStr "123", VStr "test_server")] /\
  GoldyConfig.lookup ["goldy"; "allowed_guilds"]
    (snd (GoldyConfig.allowed_guilds json_guilds)) =
    Some (VDict [("123", VStr "test_server")]).
Proof.
  apply (proj1 (proj2 (proj2 (allowed_guilds_of_config json_guilds)))
           [("{guild_id_here}", VStr "{guild_code_name_here}");
            ("123", VStr "test_server")]).
  - reflexivity.
  - apply (bool_decide_unpack (NoDup (dict_keys _))). vm_compute. exact I.
Defined.

Lemma unload_before_load_raises_witness :
  unload 0 with_ping = (Raise TypeError, with_ping) /\
  delete 0 with_ping = (Raise TypeError, with_ping).
Proof.
  apply (unload_before_load_raises with_ping 0 ping_cmd); reflexivity.
Defined.

Lemma invoke_guild_id_guard_witness :
  invoke 0 (VDict (message None "!ping")) PREFIX_CMD with_ping_loaded =
    (Raise (KeyError "guild_id"), with_ping_loaded) /\
  invoke 0 (VDict (message (Some "999") "!ping")) PREFIX_CMD with_ping_loaded =
    (Ok tt, after allowed_guilds with_ping_loaded).
Proof.
  split.
  - apply (proj1 (invoke_guild_id_guard with_ping_loaded 0
                    (with_loaded true
                       (with_list_of_application_command_data
                          (Some [("123", {| acd_id := "9000" |})]) ping_cmd))
                    (message None "!ping") PREFIX_CMD eq_refl)).
    reflexivity.
  - apply (proj2 (invoke_guild_id_guard with_ping_loaded 0
                    (with_loaded true
                       (with_list_of_application_command_data
                          (Some [("123", {| acd_id := "9000" |})]) ping_cmd))
                    (message (Some "999") "!ping") PREFIX_CMD eq_refl)
             (VStr "999") [("123", "test_server")]
             (after allowed_guilds with_ping_loaded));
      reflexivity.
Defined.

(** [!ping] written in the allowed guild, whose prefix is [!], with two
    commands loaded: the first of them, loaded before the second, is
    called. *)
Lemma prefix_dispatch_witness :
  own_listeners 0 PREFIX_CMD "MESSAGE_CREATE" with_two_pings = 1 /\
  exists cmd cs,
    heap with_two_pings !! 0 = Some cmd /\
    prefix_match [("123", "test_server")] the_guilds cmd
      (message (Some "123") "!ping") /\
    calls_of 0 (snd (dispatch "MESSAGE_CREATE"
                       (VDict (message (Some "123") "!ping"))
                       with_two_pings))
    = calls_of 0 with_two_pings ++ cs /\
    length cs = 1 /\
    Forall (is_call 0 (prefix_platter 0 (message (Some "123") "!ping"))) cs.
Proof.
  split; [reflexivity|].
  pose (cmd := with_loaded true
                 (with_list_of_application_command_data
                    (Some [("123", {| acd_id := "9000" |})]) ping_cmd)).
  assert (Hm : prefix_match [("123", "test_server")] the_guilds cmd
                 (message (Some "123") "!ping")).
  { exists "123", {| prefix := "!" |}.
    split; [reflexivity|]. split; [left; reflexivity|].
    split; reflexivity. }
  assert (Hl : listening 0 cmd PREFIX_CMD "MESSAGE_CREATE" with_two_pings).
  { split; [reflexivity|]. split; [vm_compute; auto 10|].
    split; [|exists None; reflexivity].
    intros t' H. vm_compute in H.
    repeat (destruct H as [H|H]; [try discriminate H|]);
      [injection H as <-; reflexivity | destruct H]. }
  assert (Hg : forall s, In s (map fst [("123", "test_server")]) ->
               is_Some (get_guild (guilds with_two_pings) (VStr s))).
  { intros s [<-|[]]. exists {| prefix := "!" |}. reflexivity. }
  assert (Hd : message_data (message (Some "123") "!ping")).
  { split; [eexists; reflexivity|].
    exists [("username", VStr "goldy"); ("discriminator", VStr "0001")],
      (VStr "goldy"), (VStr "0001").
    repeat split; reflexivity. }
  destruct (prefix_dispatch with_two_pings 0 cmd
              (message (Some "123") "!ping") [("123", "test_server")]
              (after allowed_guilds with_two_pings) Hl eq_refl Hg Hd)
    as (_ & Hcall & _).
  destruct (Hcall Hm) as (cs & H1 & H2 & H3).
  exists cmd, cs. split; [reflexivity|]. split; [exact Hm|].
  split; [exact H1|]. split; [exact H2 | exact H3].
Defined.

(** ** Instances of the further properties *)

Lemma create_slash_registers_witness :
  exists l,
    fst (create_slash 0 with_ping) = Ok l /\
    http_requests (snd (create_slash 0 with_ping)) =
      [CreateGuildApplicationCommand "42" "123" "ping" default_description] /\
    map fst l = ["123"].
Proof.
  destruct (create_slash_registers with_ping 0 ping_cmd {| app_id := "42" |})
    as (l & Hr & Hm);
    [reflexivity | reflexivity | intros log app g n descr; discriminate |].
  exists l. rewrite Hr. auto.
Defined.

(** Two allowed guilds, the second registration refused: both requests
    have gone out, and that is all that has happened. *)
Lemma load_remote_refusal_witness :
  fst (load 0 with_flaky_ping) = Raise RemoteError /\
  exists k g,
    guilds_allowed_guilds (guilds with_flaky_ping) !! k = Some g /\
    snd (load 0 with_flaky_ping) =
      set_http_requests
        (http_requests with_flaky_ping ++
           map (creation_of "42" ping_cmd)
             (take (S k) (guilds_allowed_guilds (guilds with_flaky_ping))))
        with_flaky_ping.
Proof.
  split; [reflexivity|].
  destruct (load_remote_refusal with_flaky_ping 0 ping_cmd
              (snd (load 0 with_flaky_ping)) eq_refl eq_refl)
    as (_ & a & k & g & Ha & Hk & Hw & _).
  injection Ha as <-. exists k, g. split; [exact Hk | exact Hw].
Defined.

Lemma load_twice_subscribes_twice_witness :
  subscriptions 0 (after (load 0) (after (load 0) with_prefix_ping)) =
  [("MESSAGE_CREATE", CommandCallback 0 PREFIX_CMD);
   ("MESSAGE_CREATE", CommandCallback 0 PREFIX_CMD)].
Proof.
  exact (load_twice_subscribes_twice with_prefix_ping 0
           (with_list_of_application_command_data None
              {| func := ping_func; name := "ping";
                 description := default_description; required_roles := None;
                 allow_prefix_cmd := true; allow_slash_cmd := false;
                 parent_cmd := None; params := ["platter"];
                 priv_params_amount := 1; priv_in_extension := false;
                 list_of_application_command_data := None;
                 priv_loaded := false |})
           (after (load 0) with_prefix_ping)
           (after (load 0) (after (load 0) with_prefix_ping))
           eq_refl eq_refl eq_refl).
Defined.

Lemma load_unresolved_extension_witness :
  load 0 with_lost_ping =
  (Raise TypeError,
   set_event_handlers
     (event_handlers with_lost_ping ++
        [("MESSAGE_CREATE", CommandCallback 0 PREFIX_CMD)]) with_lost_ping).
Proof.
  exact (load_unresolved_extension with_lost_ping 0
           {| func := lost_ping_func; name := "ping";
              description := default_description; required_roles := None;
              allow_prefix_cmd := true; allow_slash_cmd := false;
              parent_cmd := None; params := ["platter"];
              priv_params_amount := 1; priv_in_extension := true;
              list_of_application_command_data := None;
              priv_loaded := false |}
           "Lost" eq_refl eq_refl eq_refl eq_refl eq_refl).
Defined.

Lemma extension_name_of_qualified_witness :
  extension_name_of fun_ping_func = Ok "Fun".
Proof.
  apply (extension_name_of_qualified fun_ping_func "<function" "Fun"
           "ping at 0x7f3a5c>").
  - reflexivity.
  - simpl. repeat split; discriminate.
  - simpl. repeat split; discriminate.
  - simpl. repeat split; discriminate.
Defined.

(** An interaction meant for another command, [roll], in the allowed
    guild, with two commands loaded: the callback of the first [ping] is
    called. *)
Lemma slash_dispatch_witness :
  own_listeners 0 SLASH_CMD "INTERACTION_CREATE" with_two_pings = 1 /\
  exists cs,
    calls_of 0 (snd (dispatch "INTERACTION_CREATE"
                       (VDict (interaction "123" "roll")) with_two_pings))
    = calls_of 0 with_two_pings ++ cs /\
    length cs = 1 /\
    Forall (is_call 0 (slash_platter 0 (interaction "123" "roll"))) cs.
Proof.
  split; [reflexivity|].
  pose (cmd := with_loaded true
                 (with_list_of_application_command_data
                    (Some [("123", {| acd_id := "9000" |})]) ping_cmd)).
  assert (Hl : listening 0 cmd SLASH_CMD "INTERACTION_CREATE" with_two_pings).
  { split; [reflexivity|]. split; [vm_compute; auto 10|].
    split; [|exists None; reflexivity].
    intros t' H. vm_compute in H.
    repeat (destruct H as [H|H]; [try discriminate H|]);
      [injection H as <-; reflexivity | destruct H]. }
  assert (Hg : forall s, In s (map fst [("123", "test_server")]) ->
               is_Some (get_guild (guilds with_two_pings) (VStr s))).
  { intros s [<-|[]]. exists {| prefix := "!" |}. reflexivity. }
  assert (Hd : interaction_data (interaction "123" "roll")).
  { exists [("user", VDict [("username", VStr "goldy");
                            ("discriminator", VStr "0001")])],
      [("username", VStr "goldy"); ("discriminator", VStr "0001")],
      (VStr "goldy"), (VStr "0001").
    repeat split; reflexivity. }
  destruct (slash_dispatch with_two_pings 0 cmd (interaction "123" "roll")
              [("123", "test_server")]
              (after allowed_guilds with_two_pings) Hl eq_refl Hg Hd)
    as (_ & Hcall & _).
  apply Hcall. exists "123". split; [reflexivity | left; reflexivity].
Defined.

Lemma unload_keeps_handles_witness :
  exists cmd1,
    heap (after (unload 0) with_ping_loaded) !! 0 = Some cmd1 /\
    loaded cmd1 = false /\
    list_of_application_command_data cmd1 =
      Some [("123", {| acd_id := "9000" |})].
Proof.
  destruct (unload_keeps_handles with_ping_loaded 0
              (with_loaded true
                 (with_list_of_application_command_data
                    (Some [("123", {| acd_id := "9000" |})]) ping_cmd))
              (after (unload 0) with_ping_loaded) eq_refl eq_refl)
    as (cmd1 & H1 & H2 & H3 & _).
  exists cmd1. auto.
Defined.

Lemma init_load_delete_witness :
  exists w3,
    delete 0 with_ping_loaded = (Ok tt, w3) /\
    commands_cache w3 = [] /\
    event_handlers w3 = [("READY", OtherCallback 0)].
Proof.
  apply (init_load_delete ping_func None None None true true None boot 0
           with_ping with_ping_loaded).
  - split.
    + intros nm c [].
    + intros e c t [H|[]]. discriminate.
  - intros log app g id. discriminate.
  - reflexivity.
  - reflexivity.
Defined.

Lemma Command_init_without_variables_witness :
  Command_init nothing_func None None None true true None boot =
  (Raise IndexError, boot).
Proof.
  apply Command_init_without_variables. reflexivity.
Defined.

(** [roll(platter, sides)] with its local variable [total]: two arguments
    pass for the one parameter an invoker supplies. *)
Lemma any_args_missing_counts_variables_witness :
  any_args_missing
    {| func := roll_func; name := "roll"; description := default_description;
       required_roles := None; allow_prefix_cmd := true;
       allow_slash_cmd := true; parent_cmd := None;
       params := ["platter"; "sides"; "total"]; priv_params_amount := 2;
       priv_in_extension := false;
       list_of_application_command_data := None; priv_loaded := false |}
    [VStr "six"; VStr "seven"] = true.
Proof.
  apply (any_args_missing_counts_variables roll_func None None None true true
           None).
  - reflexivity.
  - vm_compute. discriminate.
  - reflexivity.
Defined.

Lemma do_reload_argument_witness :
  do_reload "Fnu" boot = None /\ do_reload "" boot = None.
Proof.
  split.
  - apply (proj1 (do_reload_argument "Fnu" boot)). right.
    intros [H|[]]. discriminate.
  - apply (proj1 (do_reload_argument "" boot)). left. reflexivity.
Defined.
